(** * Sales-method dominance by state: the cleaning and aggregation core

    A shallow embedding of [load_sales_data] and
    [calculate_geographic_dominance] of [geographic_choropleth_map.py],
    together with the part of pandas' behaviour these two functions rely on,
    and of the control flow of [create_choropleth_map] and [main] around
    them (the calls into plotly are parameters).

    Conventions of the embedding.
    - A [DataFrame] of sales records is the list of its rows, in row order.
      A cell that pandas shows as NaN is [None].
    - float64 values (revenue, percentages) are idealised as exact rationals
      ([Q]); equalities between computed numbers are stated up to [==].  The
      two sample numbers quoted for the pipeline (20.0 and 70.0) are checked
      in binary64 as well, at the end of the file.
    - [state] and [years_as_customer] are taken to be present in every
      record; [sales_method] and [revenue] may be NaN.
    - A Python exception is a value of [error]; a function that may raise
      returns a [result]. *)

From Stdlib Require Import Floats.
From Stdlib Require Import List String Ascii Bool ZArith QArith Qminmax Lia.
From Stdlib Require Import Permutation Sorted OrderedTypeEx.
From Stdlib Require Import Lqa.
From Stdlib Require DecimalString.
Import ListNotations.

Local Open Scope string_scope.
Local Open Scope list_scope.

(** ** Exceptions *)

Inductive error : Type :=
| KeyError (key : option string)          (* a label lookup in a Series; [None] is the key NaN *)
| KeyError_columns (missing : list string) (* a list-of-labels column selection *)
| ValueError.

Inductive result (A : Type) : Type :=
| Ok (a : A)
| Raise (e : error).
Arguments Ok {A} a.
Arguments Raise {A} e.

Definition bind {A B} (m : result A) (k : A -> result B) : result B :=
  match m with
  | Ok a => k a
  | Raise e => Raise e
  end.

Notation "x <- m ;; k" := (bind m (fun x => k))
  (at level 61, m at next level, right associativity).

(** ** The pandas primitives the two functions use *)

Module Pandas.

(** A Python [dict] with string keys, and a [Series] indexed by labels. *)
Definition dict (V : Type) := list (string * V).

Fixpoint dict_get {V} (d : dict V) (k : string) : option V :=
  match d with
  | [] => None
  | (k', v) :: d' => if String.eqb k' k then Some v else dict_get d' k
  end.

(** [Series.map(d)] on one cell: a value that is not a key of [d] (NaN
    included) becomes NaN. *)
Definition map_cell {V} (d : dict V) (x : option string) : option V :=
  match x with
  | Some s => dict_get d s
  | None => None
  end.

(** [ser[key]] by label: [KeyError] when the label is not in the index; NaN
    is never a label of an index built by [groupby]. *)
Definition series_getitem {V} (ser : dict V) (key : option string) : result V :=
  match key with
  | None => Raise (KeyError None)
  | Some k =>
      match dict_get ser k with
      | Some v => Ok v
      | None => Raise (KeyError (Some k))
      end
  end.

(** Group keys come out sorted and without repeats ([groupby(sort=True)]). *)
Fixpoint insert_key (k : string) (l : list string) : list string :=
  match l with
  | [] => [k]
  | x :: l' =>
      match String.compare k x with
      | Lt => k :: l
      | Eq => l
      | Gt => x :: insert_key k l'
      end
  end.

Definition sorted_unique (l : list string) : list string :=
  fold_right insert_key [] l.

(** The non-NaN cells of a column ([dropna]). *)
Definition dropna {V} (l : list (option V)) : list V :=
  flat_map (fun x => match x with Some v => [v] | None => [] end) l.

Definition Qsum (l : list Q) : Q := fold_right Qplus 0%Q l.

(** [mean()] skips NaN; the mean of no value is NaN. *)
Definition mean (l : list (option Q)) : option Q :=
  match dropna l with
  | [] => None
  | v :: vs => Some (Qsum (v :: vs) / inject_Z (Z.of_nat (List.length (v :: vs))))%Q
  end.

(** [idxmax] and [max] along a row: the label of the first occurrence of
    the maximum, and the maximum. *)
Fixpoint argmax_from (best : string * Q) (l : dict Q) : string * Q :=
  match l with
  | [] => best
  | (c, v) :: l' =>
      if Qle_bool v (snd best) then argmax_from best l' else argmax_from (c, v) l'
  end.

Definition idxmax (cells : dict Q) : option string :=
  match cells with
  | [] => None
  | cv :: l => Some (fst (argmax_from cv l))
  end.

Definition Qmaxb (a b : Q) : Q := if Qle_bool a b then b else a.

Definition row_max (cells : dict Q) : option Q :=
  match cells with
  | [] => None
  | (_, v) :: l => Some (fold_left Qmaxb (map snd l) v)
  end.

(** A frame whose rows are labelled by its index and whose cells are
    labelled by column. *)
Record frame (V : Type) : Type := mkFrame {
  columns : list string;
  rows : list (string * dict V)
}.
Arguments mkFrame {V} columns rows.
Arguments columns {V} f.
Arguments rows {V} f.

(** [frame[cols]] with a list of labels: every label must be a column. *)
Definition missing_labels (cols have : list string) : list string :=
  filter (fun c => negb (existsb (String.eqb c) have)) cols.

Definition select (V : Type) (cols : list string) (cells : dict V) : dict V :=
  flat_map (fun c => match dict_get cells c with
                     | Some v => [(c, v)]
                     | None => []
                     end) cols.
Arguments select {V} cols cells.

Definition frame_getitem {V} (f : frame V) (cols : list string) : result (frame V) :=
  match missing_labels cols (columns f) with
  | [] => Ok (mkFrame cols (map (fun r => (fst r, select cols (snd r))) (rows f)))
  | missing => Raise (KeyError_columns missing)
  end.

End Pandas.
Import Pandas.

(** ** The table of sales records *)

Record row : Type := mkRow {
  state : string;
  sales_method : option string;
  revenue : option Q;
  years_as_customer : Z
}.

Definition DataFrame := list row.

Definition set_sales_method (r : row) (m : option string) : row :=
  mkRow (state r) m (revenue r) (years_as_customer r).

Definition set_revenue (r : row) (v : option Q) : row :=
  mkRow (state r) (sales_method r) v (years_as_customer r).

Definition set_years_as_customer (r : row) (y : Z) : row :=
  mkRow (state r) (sales_method r) (revenue r) y.

(** ** [load_sales_data] *)

Definition sales_method_mapping : dict string :=
  [ ("Email", "Email");
    ("Call", "Call");
    ("Email + Call", "Email + Call");
    ("em + call", "Email + Call");
    ("email", "Email") ].

(** [sales_data['sales_method'] = sales_data['sales_method'].map(sales_method_mapping)] *)
Definition standardize_methods (sales_data : DataFrame) : DataFrame :=
  map (fun r => set_sales_method r (map_cell sales_method_mapping (sales_method r)))
      sales_data.

(** The revenue cells of the rows whose method is [m]. *)
Definition revenue_of_method (sales_data : DataFrame) (m : string) : list (option Q) :=
  map revenue
      (filter (fun r => match sales_method r with
                        | Some m' => String.eqb m' m
                        | None => false
                        end) sales_data).

(** [sales_data.groupby('sales_method')['revenue'].mean()]: rows whose key is
    NaN belong to no group. *)
Definition mean_revenue_by_method (sales_data : DataFrame) : dict (option Q) :=
  map (fun m => (m, mean (revenue_of_method sales_data m)))
      (sorted_unique (dropna (map sales_method sales_data))).

Definition replace_null_revenue (mean_revenue : dict (option Q)) (r : row)
  : result (option Q) :=
  match revenue r with
  | None => series_getitem mean_revenue (sales_method r)
  | Some v => Ok (Some v)
  end.

Fixpoint map_rows {A B} (f : A -> result B) (l : list A) : result (list B) :=
  match l with
  | [] => Ok []
  | a :: l' =>
      b <- f a ;;
      bs <- map_rows f l' ;;
      Ok (b :: bs)
  end.

(** [sales_data['revenue'] = sales_data.apply(f, axis=1)].  The function is
    called on the rows in order and the first exception propagates.  On a
    frame with no rows [apply] returns a copy of the (empty) frame instead of
    a Series, and assigning a frame with several columns to the one column
    [revenue] is refused with a [ValueError]. *)
Definition apply_to_revenue (f : row -> result (option Q)) (sales_data : DataFrame)
  : result DataFrame :=
  match sales_data with
  | [] => Raise ValueError
  | _ =>
      col <- map_rows f sales_data ;;
      Ok (map (fun rv => set_revenue (fst rv) (snd rv)) (combine sales_data col))
  end.

(** [sales_data.loc[sales_data['years_as_customer'] > 39, 'years_as_customer'] = 39] *)
Definition cap_years (sales_data : DataFrame) : DataFrame :=
  map (fun r => if (39 <? years_as_customer r)%Z
                then set_years_as_customer r 39%Z
                else r) sales_data.

Definition load_sales_data (csv : DataFrame) : result DataFrame :=
  let sales_data := standardize_methods csv in
  let mean_revenue := mean_revenue_by_method sales_data in
  sales_data <- apply_to_revenue (replace_null_revenue mean_revenue) sales_data ;;
  Ok (cap_years sales_data).

(** ** [calculate_geographic_dominance] *)

(** One row of the returned frame: the state, the percentage columns (one per
    sales method that occurs in the data), and the three added columns. *)
Record choropleth_row : Type := mkChoropleth {
  out_state : string;
  pct : dict Q;
  dominant_method : option string;
  dominance_strength : option Q;
  state_abbrev_col : option string
}.

(** The rows that [groupby(['state', 'sales_method'])] puts in a group: a
    row whose method is NaN is in none. *)
Definition grouped (sales_data : DataFrame) : list (string * string) :=
  flat_map (fun r => match sales_method r with
                     | Some m => [(state r, m)]
                     | None => []
                     end) sales_data.

(** [.size()] of the group [(s, m)]. *)
Definition group_size (sales_data : DataFrame) (s m : string) : Z :=
  Z.of_nat (List.length
    (filter (fun k => String.eqb (fst k) s && String.eqb (snd k) m)
            (grouped sales_data))).

(** The index and the columns of [.size().unstack(fill_value=0)]: the states
    and the methods of the groups, both sorted. *)
Definition group_states (sales_data : DataFrame) : list string :=
  sorted_unique (map fst (grouped sales_data)).

Definition group_methods (sales_data : DataFrame) : list string :=
  sorted_unique (map snd (grouped sales_data)).

(** The row of the state [s]: a pair that is no group counts 0. *)
Definition size_row (sales_data : DataFrame) (s : string) : dict Z :=
  map (fun m => (m, group_size sales_data s m)) (group_methods sales_data).

Definition size_unstack (sales_data : DataFrame) : frame Z :=
  mkFrame (group_methods sales_data)
          (map (fun s => (s, size_row sales_data s)) (group_states sales_data)).

(** [.sum(axis=1)] of one row. *)
Definition row_sum (cells : dict Z) : Z := fold_right Z.add 0%Z (map snd cells).

(** [state_method_pct.div(state_method_pct.sum(axis=1), axis=0) * 100] *)
Definition percent_row (cells : dict Z) : dict Q :=
  map (fun c => (fst c, (inject_Z (snd c) / inject_Z (row_sum cells) * 100)%Q)) cells.

Definition to_percent (f : frame Z) : frame Q :=
  mkFrame (columns f) (map (fun r => (fst r, percent_row (snd r))) (rows f)).

Definition numeric_cols : list string := ["Call"; "Email"; "Email + Call"].

Definition state_abbrev : dict string :=
  [ ("Alabama", "AL"); ("Alaska", "AK"); ("Arizona", "AZ"); ("Arkansas", "AR");
    ("California", "CA"); ("Colorado", "CO"); ("Connecticut", "CT");
    ("Delaware", "DE"); ("Florida", "FL"); ("Georgia", "GA"); ("Hawaii", "HI");
    ("Idaho", "ID"); ("Illinois", "IL"); ("Indiana", "IN"); ("Iowa", "IA");
    ("Kansas", "KS"); ("Kentucky", "KY"); ("Louisiana", "LA"); ("Maine", "ME");
    ("Maryland", "MD"); ("Massachusetts", "MA"); ("Michigan", "MI");
    ("Minnesota", "MN"); ("Mississippi", "MS"); ("Missouri", "MO");
    ("Montana", "MT"); ("Nebraska", "NE"); ("Nevada", "NV");
    ("New Hampshire", "NH"); ("New Jersey", "NJ"); ("New Mexico", "NM");
    ("New York", "NY"); ("North Carolina", "NC"); ("North Dakota", "ND");
    ("Ohio", "OH"); ("Oklahoma", "OK"); ("Oregon", "OR"); ("Pennsylvania", "PA");
    ("Rhode Island", "RI"); ("South Carolina", "SC"); ("South Dakota", "SD");
    ("Tennessee", "TN"); ("Texas", "TX"); ("Utah", "UT"); ("Vermont", "VT");
    ("Virginia", "VA"); ("Washington", "WA"); ("West Virginia", "WV");
    ("Wisconsin", "WI"); ("Wyoming", "WY") ].

Definition calculate_geographic_dominance (sales_data : DataFrame)
  : result (list choropleth_row) :=
  let state_method_pct := to_percent (size_unstack sales_data) in
  numeric <- frame_getitem state_method_pct numeric_cols ;;
  Ok (map (fun rn =>
             let r := fst rn in
             let n := snd rn in
             mkChoropleth (fst r) (snd r)
                          (idxmax (snd n))
                          (row_max (snd n))
                          (map_cell state_abbrev (Some (fst r))))
          (combine (rows state_method_pct) (rows numeric))).

(** The value of the column [c] in a returned row. *)
Definition share (r : choropleth_row) (c : string) : option Q := dict_get (pct r) c.

(** ** Sample tables *)

Definition call_10_null_30 : DataFrame :=
  [ mkRow "Texas" (Some "Call") (Some 10%Q) 5;
    mkRow "Texas" (Some "Call") None 45;
    mkRow "Ohio" (Some "Call") (Some 30%Q) 39 ].

Definition call_10_null_30_cleaned : DataFrame :=
  [ mkRow "Texas" (Some "Call") (Some 10%Q) 5;
    mkRow "Texas" (Some "Call") (Some (40 # 2)%Q) 39;
    mkRow "Ohio" (Some "Call") (Some 30%Q) 39 ].

(** A raw table with a method that [sales_method_mapping] does not list. *)
Definition fax_table : DataFrame :=
  [ mkRow "Texas" (Some "Email") (Some 10%Q) 3;
    mkRow "Ohio" (Some "fax") (Some 7%Q) 2 ].

Definition fax_table_cleaned : DataFrame :=
  [ mkRow "Texas" (Some "Email") (Some 10%Q) 3;
    mkRow "Ohio" None (Some 7%Q) 2 ].

(** A raw table whose only [Call] record has no revenue. *)
Definition call_without_revenue : DataFrame :=
  [ mkRow "Texas" (Some "email") (Some 10%Q) 3;
    mkRow "Ohio" (Some "Call") None 2 ].

Definition call_without_revenue_cleaned : DataFrame :=
  [ mkRow "Texas" (Some "Email") (Some 10%Q) 3;
    mkRow "Ohio" (Some "Call") None 2 ].

(** A raw table with an unmapped method and a missing revenue in one record. *)
Definition fax_without_revenue : DataFrame :=
  [ mkRow "Texas" (Some "Email") (Some 10%Q) 3;
    mkRow "Ohio" (Some "fax") None 2 ].

(** A cleaned table in which two of the three methods never occur. *)
Definition only_calls : DataFrame :=
  [ mkRow "Texas" (Some "Call") (Some 10%Q) 5;
    mkRow "Ohio" (Some "Call") (Some 3%Q) 2 ].

(** A raw table in which one Texas record has an unmapped method. *)
Definition texas_with_fax : DataFrame :=
  [ mkRow "Texas" (Some "Call") (Some 1%Q) 1;
    mkRow "Texas" (Some "Email") (Some 1%Q) 1;
    mkRow "Texas" (Some "Email + Call") (Some 1%Q) 1;
    mkRow "Texas" (Some "fax") (Some 1%Q) 1 ].

Definition texas_with_fax_cleaned : DataFrame :=
  [ mkRow "Texas" (Some "Call") (Some 1%Q) 1;
    mkRow "Texas" (Some "Email") (Some 1%Q) 1;
    mkRow "Texas" (Some "Email + Call") (Some 1%Q) 1;
    mkRow "Texas" None (Some 1%Q) 1 ].

(** A raw table in which the only Ohio record has an unmapped method. *)
Definition ohio_fax_only : DataFrame :=
  [ mkRow "Texas" (Some "Call") (Some 1%Q) 1;
    mkRow "Texas" (Some "Email") (Some 1%Q) 1;
    mkRow "Texas" (Some "Email + Call") (Some 1%Q) 1;
    mkRow "Ohio" (Some "fax") (Some 7%Q) 1 ].

Definition ohio_fax_only_cleaned : DataFrame :=
  [ mkRow "Texas" (Some "Call") (Some 1%Q) 1;
    mkRow "Texas" (Some "Email") (Some 1%Q) 1;
    mkRow "Texas" (Some "Email + Call") (Some 1%Q) 1;
    mkRow "Ohio" None (Some 7%Q) 1 ].

(** A cleaned table with a state that [state_abbrev] does not list. *)
Definition puerto_rico : DataFrame :=
  [ mkRow "Puerto Rico" (Some "Email") (Some 1%Q) 1;
    mkRow "Puerto Rico" (Some "Call") (Some 1%Q) 1;
    mkRow "Texas" (Some "Email + Call") (Some 1%Q) 1 ].

(** A cleaned table in which [Email] and [Call] tie in Texas, the [Email]
    record coming first. *)
Definition texas_tie : DataFrame :=
  [ mkRow "Texas" (Some "Email") (Some 1%Q) 1;
    mkRow "Texas" (Some "Call") (Some 1%Q) 1;
    mkRow "Ohio" (Some "Email + Call") (Some 1%Q) 1 ].

Definition texas_3_7_0 : DataFrame :=
  repeat (mkRow "Texas" (Some "Email") (Some 1%Q) 1) 3
  ++ repeat (mkRow "Texas" (Some "Call") (Some 1%Q) 1) 7
  ++ [ mkRow "Ohio" (Some "Email + Call") (Some 1%Q) 1 ].


(** ** Vocabulary of the statements *)

(** The method a raw record is filed under once the methods are standardized. *)
Definition method_of (r : row) : option string :=
  map_cell sales_method_mapping (sales_method r).

(** The known (non-missing) revenues of the raw records filed under [m]. *)
Definition known_revenues (csv : DataFrame) (m : string) : list Q :=
  flat_map (fun r => match method_of r, revenue r with
                     | Some m', Some v => if String.eqb m' m then [v] else []
                     | _, _ => []
                     end) csv.

Definition has_method (r : row) : bool :=
  match sales_method r with
  | Some _ => true
  | None => false
  end.

Definition has_method_eq (m : string) (r : row) : bool :=
  match sales_method r with
  | Some m' => String.eqb m' m
  | None => false
  end.

(** How many records of state [s] carry the method [m], and how many carry
    any method at all. *)
Definition count_state_method (t : DataFrame) (s m : string) : Z :=
  Z.of_nat (List.length
    (filter (fun r => String.eqb (state r) s && has_method_eq m r) t)).

Definition count_state (t : DataFrame) (s : string) : Z :=
  Z.of_nat (List.length
    (filter (fun r => String.eqb (state r) s && has_method r) t)).

(** The cleaned row that corresponds to the raw row [r] of [csv]. *)
Definition cleaned_from (csv : DataFrame) (r r' : row) : Prop :=
  state r' = state r /\
  sales_method r' = method_of r /\
  years_as_customer r' =
    (if (39 <? years_as_customer r)%Z then 39%Z else years_as_customer r) /\
  match revenue r, method_of r with
  | Some v, _ => revenue r' = Some v
  | None, Some m => revenue r' = mean (revenue_of_method (standardize_methods csv) m)
  | None, None => False
  end.

(** A record with neither a revenue nor a method after standardization. *)
Definition unfiled (r : row) : bool :=
  match revenue r, method_of r with
  | None, None => true
  | _, _ => false
  end.

(** The row of the returned frame for the state [s]. *)
Definition choropleth_of (sales_data : DataFrame) (s : string) : choropleth_row :=
  let p := percent_row (size_row sales_data s) in
  mkChoropleth s p (idxmax (select numeric_cols p)) (row_max (select numeric_cols p))
               (dict_get state_abbrev s).

(** Every method in the table is one of the three canonical ones (or is
    missing): what standardization leaves. *)
Definition methods_standardized (t : DataFrame) : Prop :=
  forall x m, In x t -> sales_method x = Some m -> In m numeric_cols.

(** The binary64 reading of a percentage cell and of the mean of two values. *)
Definition percent_float (count total : PrimFloat.float) : PrimFloat.float :=
  PrimFloat.mul (PrimFloat.div count total) 100%float.

Definition mean2_float (a b : PrimFloat.float) : PrimFloat.float :=
  PrimFloat.div (PrimFloat.add a b) 2%float.

(** [c] comes before [d] in the list [l]. *)
Definition precedes (l : list string) (c d : string) : Prop :=
  exists l1 l2 l3, l = l1 ++ c :: l2 ++ d :: l3.

(** ** [create_choropleth_map] and [main]

    The two functions only print and call into plotly.  A run is described
    by what it shows to the outside, in order; how the calls into plotly end
    is a parameter. *)

(** The exceptions [main] can meet: the missing input file, an exception of
    the two stages above, or whatever plotly raises. *)
Inductive exn : Type :=
| FileNotFoundError
| StageError (e : error)
| PlotlyError (what : string).

Inductive event : Type :=
| Printed (line : string)
| Printed_exception (e : exn)  (* the line [f"Error generating choropleth map: {e}"] *)
| Plotted (choropleth_data : list choropleth_row)  (* [px.choropleth], [update_layout], [plot(fig, ...)] *)
| Shown (choropleth_data : list choropleth_row).   (* [fig.show()] *)

(** How the calls into plotly end on a given frame: [None] when the call
    returns, [Some e] when it raises [e]. *)
Record plotly : Type := mkPlotly {
  plot_raises : list choropleth_row -> option exn;
  show_raises : list choropleth_row -> option exn
}.

(** The events of a call and the exception it ends with, if any. *)
Definition create_choropleth_map (px : plotly) (choropleth_data : list choropleth_row)
  : list event * option exn :=
  match plot_raises px choropleth_data with
  | Some e => ([Plotted choropleth_data], Some e)
  | None =>
      ([Plotted choropleth_data;
        Printed "Interactive choropleth map saved as: sales_method_dominance_choropleth.html";
        Shown choropleth_data]
       ++ match show_raises px choropleth_data with
          | Some _ => [Printed "Map saved to HTML file. Open in browser to view interactively."]
          | None => []
          end,
       None)
  end.

(** [str(n)] of a length. *)
Definition str_of_len (n : nat) : string :=
  DecimalString.NilEmpty.string_of_uint (Nat.to_uint n).

(** The body of the [try] of [main]; [product_sales_csv] is the table in the
    file, [None] when there is no such file. *)
Definition main_try (px : plotly) (product_sales_csv : option DataFrame)
  : list event * option exn :=
  match product_sales_csv with
  | None => ([], Some FileNotFoundError)
  | Some csv =>
      match load_sales_data csv with
      | Raise e => ([], Some (StageError e))
      | Ok sales_data =>
          let loaded :=
            Printed ("Loaded " ++ str_of_len (List.length sales_data)
                     ++ " customer records") in
          match calculate_geographic_dominance sales_data with
          | Raise e => ([loaded], Some (StageError e))
          | Ok choropleth_data =>
              let calculated :=
                Printed ("Calculated dominance metrics for "
                         ++ str_of_len (List.length choropleth_data) ++ " states") in
              let drawn := create_choropleth_map px choropleth_data in
              (loaded :: calculated :: fst drawn, snd drawn)
          end
      end
  end.

(** The two [except] clauses of [main]. *)
Definition main_except (e : exn) : event :=
  match e with
  | FileNotFoundError => Printed "Error: product_sales.csv not found in Study/ directory"
  | _ => Printed_exception e
  end.

Definition main (px : plotly) (product_sales_csv : option DataFrame) : list event :=
  let run := main_try px product_sales_csv in
  fst run ++ match snd run with
             | Some e => [main_except e]
             | None => []
             end.

(** The revenues of the raw records filed under [m], in row order, with
    [mu] in the place of each missing one. *)
Definition filled_revenues (mu : Q) (csv : DataFrame) (m : string) : list Q :=
  flat_map (fun r => match method_of r with
                     | Some m' =>
                         if String.eqb m' m
                         then [match revenue r with Some v => v | None => mu end]
                         else []
                     | None => []
                     end) csv.

(** * Facts about the pandas primitives *)

Module PandasFacts.

(** ** The order on labels *)

Definition label_lt (a b : string) : Prop := String.compare a b = Lt.

Lemma compare_refl a : String.compare a a = Eq.
Proof. now apply String_as_OT.cmp_eq. Qed.

Lemma compare_Eq_eq a b : String.compare a b = Eq -> a = b.
Proof. apply String.compare_eq_iff. Qed.

Lemma compare_Gt_Lt a b : String.compare a b = Gt -> label_lt b a.
Proof.
  unfold label_lt. intros H. rewrite String.compare_antisym, H. reflexivity.
Qed.

Lemma label_lt_trans a b c : label_lt a b -> label_lt b c -> label_lt a c.
Proof.
  unfold label_lt. intros H1 H2.
  apply String_as_OT.cmp_lt in H1. apply String_as_OT.cmp_lt in H2.
  apply String_as_OT.cmp_lt. eapply String_as_OT.lt_trans; eassumption.
Qed.

Lemma label_lt_irrefl a : ~ label_lt a a.
Proof. unfold label_lt. rewrite compare_refl. discriminate. Qed.

(** ** [sorted_unique]: membership, order, and dependence on the set only *)

Lemma insert_key_In k l x : In x (insert_key k l) <-> x = k \/ In x l.
Proof.
  induction l as [|y l IH]; simpl.
  - intuition congruence.
  - destruct (String.compare k y) eqn:E; simpl.
    + apply compare_Eq_eq in E. subst. intuition.
    + intuition congruence.
    + rewrite IH. intuition.
Qed.

Lemma sorted_unique_In l x : In x (sorted_unique l) <-> In x l.
Proof.
  induction l as [|y l IH]; simpl; [tauto|].
  rewrite insert_key_In, IH. intuition congruence.
Qed.

Lemma insert_key_sorted k l :
  StronglySorted label_lt l -> StronglySorted label_lt (insert_key k l).
Proof.
  induction 1 as [|y l Hs IH Hall]; simpl.
  - repeat constructor.
  - destruct (String.compare k y) eqn:E.
    + now constructor.
    + constructor; [now constructor|].
      constructor; [exact E|].
      eapply Forall_impl; [|exact Hall].
      intros z Hz. eapply label_lt_trans; eassumption.
    + constructor; [exact IH|].
      apply Forall_forall. intros z Hz.
      apply insert_key_In in Hz. destruct Hz as [->|Hz].
      * now apply compare_Gt_Lt.
      * rewrite Forall_forall in Hall. now apply Hall.
Qed.

Lemma sorted_unique_sorted l : StronglySorted label_lt (sorted_unique l).
Proof.
  induction l; simpl; [constructor | now apply insert_key_sorted].
Qed.

Lemma sorted_NoDup l : StronglySorted label_lt l -> NoDup l.
Proof.
  induction 1 as [|y l Hs IH Hall]; constructor; [|exact IH].
  intros Hin. rewrite Forall_forall in Hall.
  exact (label_lt_irrefl _ (Hall _ Hin)).
Qed.

Lemma sorted_unique_NoDup l : NoDup (sorted_unique l).
Proof. apply sorted_NoDup, sorted_unique_sorted. Qed.

Lemma sorted_same_set l1 :
  forall l2,
    StronglySorted label_lt l1 -> StronglySorted label_lt l2 ->
    (forall x, In x l1 <-> In x l2) -> l1 = l2.
Proof.
  induction l1 as [|x l1 IH]; intros [|y l2] H1 H2 Hset.
  - reflexivity.
  - exfalso. apply (proj2 (Hset y)). now left.
  - exfalso. apply (proj1 (Hset x)). now left.
  - inversion H1 as [|? ? H1s H1a]; subst.
    inversion H2 as [|? ? H2s H2a]; subst.
    rewrite Forall_forall in H1a, H2a.
    assert (x = y) as ->.
    { destruct (proj1 (Hset x) (or_introl eq_refl)) as [E|Hx]; [now symmetry|].
      destruct (proj2 (Hset y) (or_introl eq_refl)) as [E|Hy]; [exact E|].
      exfalso. apply (label_lt_irrefl x).
      eapply label_lt_trans; [apply H1a, Hy | apply H2a, Hx]. }
    f_equal. apply IH; trivial.
    intros z. split; intros Hz.
    + destruct (proj1 (Hset z) (or_intror Hz)) as [E|Hz']; [|exact Hz'].
      subst. exfalso. exact (label_lt_irrefl _ (H1a _ Hz)).
    + destruct (proj2 (Hset z) (or_intror Hz)) as [E|Hz']; [|exact Hz'].
      subst. exfalso. exact (label_lt_irrefl _ (H2a _ Hz)).
Qed.

(** ** Lookups in a dict built over a list of keys *)

Lemma dict_get_keyed {V} (f : string -> V) keys k :
  In k keys -> dict_get (map (fun m => (m, f m)) keys) k = Some (f k).
Proof.
  induction keys as [|m keys IH]; simpl; [tauto|].
  intros H. destruct (String.eqb_spec m k) as [->|Hne]; [reflexivity|].
  destruct H as [H|H]; [contradiction|]. now apply IH.
Qed.

Lemma dict_get_keyed_inv {V} (f : string -> V) keys k v :
  dict_get (map (fun m => (m, f m)) keys) k = Some v -> v = f k /\ In k keys.
Proof.
  induction keys as [|m keys IH]; simpl; [discriminate|].
  destruct (String.eqb_spec m k) as [->|Hne]; intros H.
  - injection H as <-. auto.
  - destruct (IH H). auto.
Qed.

End PandasFacts.
Import PandasFacts.

(** * Facts about [idxmax] and [max] along a row *)

Section RowMaximum.

Local Open Scope Q_scope.

Lemma Qle_bool_false a b : Qle_bool a b = false -> b < a.
Proof.
  intros H. apply Qnot_le_lt. intros Hle.
  apply Qle_bool_iff in Hle. congruence.
Qed.

(** The winner splits the row: strictly smaller cells before it, no larger
    cell after it. *)
Lemma argmax_from_split l :
  forall best,
  exists l1 l2,
    best :: l = l1 ++ argmax_from best l :: l2 /\
    Forall (fun x => snd x < snd (argmax_from best l)) l1 /\
    Forall (fun x => snd x <= snd (argmax_from best l)) l2.
Proof.
  induction l as [|[c v] l IH]; intros best; simpl.
  - exists [], []. repeat split; constructor.
  - destruct (Qle_bool v (snd best)) eqn:E.
    + apply Qle_bool_iff in E.
      destruct (IH best) as (l1 & l2 & Heq & H1 & H2).
      destruct l1 as [|b l1]; simpl in Heq.
      * injection Heq as Hb Hl. exists [], ((c, v) :: l2). simpl.
        repeat split; [now rewrite <- Hb, <- Hl | constructor |].
        constructor; [now rewrite <- Hb | exact H2].
      * injection Heq as Hb Hl. subst b.
        exists (best :: (c, v) :: l1), l2. simpl.
        repeat split; [do 2 f_equal; exact Hl | | exact H2].
        inversion H1 as [|? ? Hbest Hrest]; subst.
        constructor; [exact Hbest|]. constructor; [|exact Hrest].
        simpl. eapply Qle_lt_trans; eassumption.
    + apply Qle_bool_false in E.
      destruct (IH (c, v)) as (l1 & l2 & Heq & H1 & H2).
      exists (best :: l1), l2. simpl.
      repeat split; [f_equal; exact Heq | | exact H2].
      constructor; [|exact H1].
      eapply Qlt_le_trans; [exact E|].
      destruct l1 as [|b l1]; simpl in Heq.
      * injection Heq as Hb Hl. rewrite <- Hb. simpl. apply Qle_refl.
      * injection Heq as Hb Hl. subst b.
        inversion H1; subst. now apply Qlt_le_weak.
Qed.

Lemma argmax_from_In best l : In (argmax_from best l) (best :: l).
Proof.
  destruct (argmax_from_split l best) as (l1 & l2 & Heq & _).
  rewrite Heq. apply in_elt.
Qed.

Lemma argmax_from_upper best l x :
  In x (best :: l) -> snd x <= snd (argmax_from best l).
Proof.
  destruct (argmax_from_split l best) as (l1 & l2 & Heq & H1 & H2).
  rewrite Heq. intros Hin. apply in_app_or in Hin.
  rewrite Forall_forall in H1, H2.
  destruct Hin as [Hin|[<-|Hin]].
  - now apply Qlt_le_weak, H1.
  - apply Qle_refl.
  - now apply H2.
Qed.

(** [max] along the row is the value under the label [idxmax] returns. *)
Lemma fold_Qmaxb_argmax l :
  forall best acc,
    acc == snd best ->
    fold_left Qmaxb (map snd l) acc == snd (argmax_from best l).
Proof.
  induction l as [|[c v] l IH]; intros best acc Hacc; simpl; [exact Hacc|].
  unfold Qmaxb at 2.
  destruct (Qle_bool v (snd best)) eqn:E.
  - apply Qle_bool_iff in E. apply IH.
    destruct (Qle_bool acc v) eqn:E'; [|exact Hacc].
    apply Qle_bool_iff in E'. rewrite <- Hacc in E.
    rewrite <- Hacc. now apply Qle_antisym.
  - apply Qle_bool_false in E. apply IH. simpl.
    destruct (Qle_bool acc v) eqn:E'; [reflexivity|].
    apply Qle_bool_false in E'. rewrite Hacc in E'.
    exfalso. exact (Qlt_irrefl _ (Qlt_trans _ _ _ E E')).
Qed.

End RowMaximum.

(** * Facts about [load_sales_data] *)

Section Loader.

Lemma Forall2_map_r {A B D} (g : B -> D) (R : A -> D -> Prop) l l' :
  Forall2 (fun a b => R a (g b)) l l' -> Forall2 R l (map g l').
Proof. induction 1; simpl; constructor; assumption. Qed.

Lemma Forall2_nth_error {A B} (R : A -> B -> Prop) l l' :
  Forall2 R l l' ->
  forall i a, nth_error l i = Some a -> exists b, nth_error l' i = Some b /\ R a b.
Proof.
  induction 1 as [|x y l l' Hxy HF IH]; intros [|i] a Hi; simpl in *; try discriminate.
  - injection Hi as <-. eauto.
  - eauto.
Qed.

Lemma dropna_In {V} (l : list (option V)) v : In v (dropna l) <-> In (Some v) l.
Proof.
  unfold dropna. rewrite in_flat_map. split.
  - intros ([x|] & Hx & Hv); simpl in Hv; [|tauto].
    destruct Hv as [->|[]]. exact Hx.
  - intros H. exists (Some v). split; [exact H | now left].
Qed.

(** *** Row-wise application *)

Lemma map_rows_Forall2 {A B} (f : A -> result B) l :
  forall bs, map_rows f l = Ok bs -> Forall2 (fun a b => f a = Ok b) l bs.
Proof.
  induction l as [|a l IH]; simpl; intros bs H.
  - injection H as <-. constructor.
  - destruct (f a) as [b|e] eqn:Ea; simpl in H; [|discriminate].
    destruct (map_rows f l) as [bs'|e] eqn:El; simpl in H; [|discriminate].
    injection H as <-. constructor; auto.
Qed.

Lemma map_rows_Ok {A B} (f : A -> result B) l :
  (forall a, In a l -> exists b, f a = Ok b) -> exists bs, map_rows f l = Ok bs.
Proof.
  induction l as [|a l IH]; simpl; intros H; [eauto|].
  destruct (H a (or_introl eq_refl)) as [b ->]. simpl.
  destruct IH as [bs ->]; [auto|]. simpl. eauto.
Qed.

Lemma map_rows_Raise {A B} (f : A -> result B) e l :
  (forall a e', In a l -> f a = Raise e' -> e' = e) ->
  (exists a, In a l /\ f a = Raise e) ->
  map_rows f l = Raise e.
Proof.
  induction l as [|a l IH]; simpl; intros Hall (x & Hx & Hfx); [tauto|].
  destruct (f a) as [b|e'] eqn:Ea; simpl.
  - destruct Hx as [->|Hx]; [congruence|].
    rewrite IH; [reflexivity | | exists x; split; assumption].
    intros a' e' Ha'. apply Hall. now right.
  - f_equal. eapply Hall; [left; reflexivity | exact Ea].
Qed.

Lemma assign_revenue_Forall2 (f : row -> result (option Q)) l :
  forall col,
    map_rows f l = Ok col ->
    Forall2 (fun a b => exists v, f a = Ok v /\ b = set_revenue a v)
            l (map (fun rv => set_revenue (fst rv) (snd rv)) (combine l col)).
Proof.
  intros col H. apply map_rows_Forall2 in H.
  induction H; simpl; constructor; eauto.
Qed.

(** *** The per-method means *)

Lemma mean_revenue_lookup (t : DataFrame) (r : row) (m : string) :
  In r t -> sales_method r = Some m ->
  dict_get (mean_revenue_by_method t) m = Some (mean (revenue_of_method t m)).
Proof.
  intros Hin Hm. unfold mean_revenue_by_method.
  apply (dict_get_keyed (fun m => mean (revenue_of_method t m))).
  apply sorted_unique_In, dropna_In. rewrite <- Hm. now apply in_map.
Qed.

Lemma known_revenues_standardized csv m :
  dropna (revenue_of_method (standardize_methods csv) m) = known_revenues csv m.
Proof.
  unfold revenue_of_method, standardize_methods, known_revenues, method_of.
  induction csv as [|r csv IH]; [reflexivity|].
  cbn [map filter flat_map sales_method set_sales_method].
  destruct (map_cell sales_method_mapping (sales_method r)) as [m'|]; [|exact IH].
  destruct (String.eqb m' m); cbn [map].
  - unfold dropna in *. cbn [flat_map]. rewrite IH.
    change (revenue (set_sales_method r (Some m'))) with (revenue r).
    destruct (revenue r); reflexivity.
  - rewrite IH. destruct (revenue r); reflexivity.
Qed.

(** What [replace_null_revenue] returns on a standardized row of the table. *)
Lemma replace_null_revenue_standardized csv r :
  In r csv ->
  replace_null_revenue (mean_revenue_by_method (standardize_methods csv))
    (set_sales_method r (method_of r))
  = match revenue r, method_of r with
    | Some v, _ => Ok (Some v)
    | None, Some m => Ok (mean (revenue_of_method (standardize_methods csv) m))
    | None, None => Raise (KeyError None)
    end.
Proof.
  intros Hin. unfold replace_null_revenue. simpl.
  destruct (revenue r) as [v|]; [reflexivity|].
  destruct (method_of r) as [m|] eqn:Em; simpl; [|reflexivity].
  erewrite mean_revenue_lookup; [reflexivity | | ].
  - unfold standardize_methods. apply in_map_iff. exists r. split; [reflexivity|exact Hin].
  - simpl. exact Em.
Qed.

Lemma load_sales_data_unfold csv :
  csv <> [] ->
  load_sales_data csv =
  (col <- map_rows (replace_null_revenue
                      (mean_revenue_by_method (standardize_methods csv)))
                   (standardize_methods csv) ;;
   Ok (cap_years (map (fun rv => set_revenue (fst rv) (snd rv))
                      (combine (standardize_methods csv) col)))).
Proof.
  intros Hne. unfold load_sales_data, apply_to_revenue.
  destruct csv as [|r csv]; [congruence|].
  cbn [standardize_methods map].
  match goal with |- context [map_rows ?f ?l] => destruct (map_rows f l) end;
    reflexivity.
Qed.

Lemma replace_null_revenue_Ok t r v :
  replace_null_revenue (mean_revenue_by_method t) r = Ok v ->
  match revenue r, sales_method r with
  | Some x, _ => v = Some x
  | None, Some m => v = mean (revenue_of_method t m)
  | None, None => False
  end.
Proof.
  unfold replace_null_revenue, series_getitem, mean_revenue_by_method.
  destruct (revenue r) as [x|]; [congruence|].
  destruct (sales_method r) as [m|]; [|discriminate].
  destruct (dict_get _ m) as [w|] eqn:E; [|discriminate].
  intros H. injection H as ->.
  now apply (dict_get_keyed_inv (fun m => mean (revenue_of_method t m))) in E.
Qed.

Lemma Forall2_of_map_l {A B C} (g : A -> C) (P : C -> B -> Prop) l :
  forall l', Forall2 P (map g l) l' -> Forall2 (fun a b => P (g a) b) l l'.
Proof.
  induction l as [|a l IH]; simpl; intros l' H; inversion H; subst; constructor; auto.
Qed.

Lemma load_sales_data_rows csv cleaned :
  load_sales_data csv = Ok cleaned -> Forall2 (cleaned_from csv) csv cleaned.
Proof.
  intros H.
  assert (Hne : csv <> []) by (intros ->; discriminate H).
  rewrite (load_sales_data_unfold csv Hne) in H.
  destruct (map_rows _ _) as [col|e] eqn:Ecol; simpl in H; [|discriminate].
  injection H as <-.
  apply assign_revenue_Forall2, Forall2_of_map_l in Ecol.
  unfold cap_years.
  apply Forall2_map_r.
  eapply Forall2_impl; [|exact Ecol].
  intros r b (v & Hv & ->). apply replace_null_revenue_Ok in Hv.
  cbn [revenue sales_method set_sales_method] in Hv. fold (method_of r) in Hv.
  unfold cleaned_from.
  destruct (39 <? years_as_customer _)%Z eqn:Ey; cbn in Ey |- *;
    repeat split; exact Hv.
Qed.

(** *** When cleaning returns and when it raises *)

Lemma in_standardize csv a :
  In a (standardize_methods csv) ->
  exists r, In r csv /\ a = set_sales_method r (method_of r).
Proof.
  unfold standardize_methods. rewrite in_map_iff.
  intros (r & <- & Hr). eauto.
Qed.

Lemma load_sales_data_succeeds csv :
  csv <> [] ->
  (forall r, In r csv -> revenue r = None -> method_of r <> None) ->
  exists cleaned, load_sales_data csv = Ok cleaned.
Proof.
  intros Hne Hall. rewrite (load_sales_data_unfold csv Hne).
  destruct (map_rows_Ok
              (replace_null_revenue (mean_revenue_by_method (standardize_methods csv)))
              (standardize_methods csv)) as [col ->]; [|simpl; eauto].
  intros a Ha. apply in_standardize in Ha. destruct Ha as (r & Hr & ->).
  rewrite (replace_null_revenue_standardized csv r Hr).
  specialize (Hall r Hr).
  destruct (revenue r); [eauto|].
  destruct (method_of r); [eauto|]. now destruct Hall.
Qed.

Lemma load_sales_data_raises csv r :
  In r csv -> revenue r = None -> method_of r = None ->
  load_sales_data csv = Raise (KeyError None).
Proof.
  intros Hr Hrev Hm.
  assert (Hne : csv <> []) by (intros ->; destruct Hr).
  rewrite (load_sales_data_unfold csv Hne).
  rewrite (map_rows_Raise _ (KeyError None)); [reflexivity | |].
  - intros a e' Ha. apply in_standardize in Ha. destruct Ha as (x & Hx & ->).
    rewrite (replace_null_revenue_standardized csv x Hx).
    destruct (revenue x); [discriminate|].
    destruct (method_of x); [discriminate|]. congruence.
  - exists (set_sales_method r (method_of r)). split.
    + unfold standardize_methods. apply in_map_iff.
      exists r. split; [reflexivity | exact Hr].
    + rewrite (replace_null_revenue_standardized csv r Hr), Hrev, Hm. reflexivity.
Qed.

(** The only exception a table with at least one row can meet is the lookup
    of the key NaN among the per-method means. *)
Lemma load_sales_data_error csv e :
  csv <> [] -> load_sales_data csv = Raise e ->
  e = KeyError None /\
  exists r, In r csv /\ revenue r = None /\ method_of r = None.
Proof.
  intros Hne H.
  destruct (existsb unfiled csv) eqn:E.
  - apply existsb_exists in E. destruct E as (r & Hr & Hu).
    unfold unfiled in Hu.
    destruct (revenue r) eqn:Erev; [discriminate|].
    destruct (method_of r) eqn:Em; [discriminate|].
    rewrite (load_sales_data_raises csv r Hr Erev Em) in H.
    split; [congruence | eauto].
  - destruct (load_sales_data_succeeds csv Hne) as [cleaned Hc]; [|congruence].
    intros r Hr Hrev Hm.
    assert (existsb unfiled csv = true); [|congruence].
    apply existsb_exists. exists r. split; [exact Hr|].
    unfold unfiled. now rewrite Hrev, Hm.
Qed.

Lemma known_revenues_nil csv m r :
  known_revenues csv m = [] -> In r csv -> method_of r = Some m -> revenue r = None.
Proof.
  intros Hk Hr Hm. destruct (revenue r) as [v|] eqn:Ev; [|reflexivity].
  assert (Hin : In v (known_revenues csv m)).
  { unfold known_revenues. apply in_flat_map. exists r. split; [exact Hr|].
    rewrite Hm, Ev, String.eqb_refl. now left. }
  rewrite Hk in Hin. destruct Hin.
Qed.

Lemma load_sales_data_row csv cleaned i r :
  load_sales_data csv = Ok cleaned -> nth_error csv i = Some r ->
  exists r', nth_error cleaned i = Some r' /\ cleaned_from csv r r'.
Proof.
  intros H. apply load_sales_data_rows in H.
  apply (Forall2_nth_error _ _ _ H).
Qed.

Lemma mapping_is_canonical s m :
  dict_get sales_method_mapping s = Some m -> In m numeric_cols.
Proof.
  unfold sales_method_mapping. cbn [dict_get].
  repeat (destruct (String.eqb _ s);
          [intros H; injection H as <-; simpl; tauto|]).
  discriminate.
Qed.

Lemma method_of_canonical r m : method_of r = Some m -> In m numeric_cols.
Proof.
  unfold method_of, map_cell. destruct (sales_method r); [|discriminate].
  apply mapping_is_canonical.
Qed.

End Loader.

(** * Facts about [calculate_geographic_dominance] *)

Section Aggregator.

Lemma combine_map_r {A B} (g : A -> B) l :
  combine l (map g l) = map (fun x => (x, g x)) l.
Proof. induction l; simpl; congruence. Qed.

Lemma missing_labels_In cols have c :
  In c (missing_labels cols have) <-> In c cols /\ ~ In c have.
Proof.
  unfold missing_labels. rewrite filter_In, negb_true_iff.
  split; intros [Hc Hn]; split; trivial.
  - intros Hin. enough (existsb (String.eqb c) have = true) by congruence.
    apply existsb_exists. exists c. split; [exact Hin | apply String.eqb_refl].
  - destruct (existsb _ have) eqn:E; [|reflexivity].
    apply existsb_exists in E. destruct E as (x & Hx & Hcx).
    apply String.eqb_eq in Hcx. subst. contradiction.
Qed.

Lemma missing_labels_nil cols have :
  missing_labels cols have = [] <-> (forall c, In c cols -> In c have).
Proof.
  split.
  - intros H c Hc.
    destruct (in_dec string_dec c have) as [Hin|Hout]; [exact Hin|].
    assert (In c (missing_labels cols have)) by now apply missing_labels_In.
    rewrite H in *. contradiction.
  - intros H. destruct (missing_labels cols have) as [|c l] eqn:E; [reflexivity|].
    assert (Hc : In c (missing_labels cols have)) by (rewrite E; now left).
    apply missing_labels_In in Hc. destruct Hc as [Hc Hn]. now apply H in Hc.
Qed.

Lemma calculate_geographic_dominance_unfold t :
  calculate_geographic_dominance t =
  match missing_labels numeric_cols (group_methods t) with
  | [] => Ok (map (choropleth_of t) (group_states t))
  | missing => Raise (KeyError_columns missing)
  end.
Proof.
  unfold calculate_geographic_dominance, frame_getitem.
  cbn [to_percent size_unstack columns rows].
  destruct (missing_labels numeric_cols (group_methods t)); [|reflexivity].
  cbn [bind rows]. f_equal.
  rewrite combine_map_r, !map_map. apply map_ext. intros s. reflexivity.
Qed.

Lemma calculate_geographic_dominance_Ok t out :
  calculate_geographic_dominance t = Ok out <->
  (forall c, In c numeric_cols -> In c (group_methods t)) /\
  out = map (choropleth_of t) (group_states t).
Proof.
  rewrite calculate_geographic_dominance_unfold, <- missing_labels_nil.
  destruct (missing_labels numeric_cols (group_methods t)); split.
  - intros H. injection H as <-. auto.
  - intros [_ ->]. reflexivity.
  - discriminate.
  - intros [H _]. discriminate.
Qed.

(** *** The groups and their sizes *)

Lemma grouped_In t s m :
  In (s, m) (grouped t) <-> exists r, In r t /\ state r = s /\ sales_method r = Some m.
Proof.
  unfold grouped. rewrite in_flat_map. split.
  - intros (r & Hr & Hin). exists r. split; [exact Hr|].
    destruct (sales_method r) as [m'|]; simpl in Hin; [|tauto].
    destruct Hin as [H|[]]. injection H as <- <-. auto.
  - intros (r & Hr & <- & Hm). exists r. split; [exact Hr|].
    rewrite Hm. now left.
Qed.

Lemma group_methods_In t m :
  In m (group_methods t) <-> exists r, In r t /\ sales_method r = Some m.
Proof.
  unfold group_methods. rewrite sorted_unique_In, in_map_iff. split.
  - intros ([s m'] & <- & Hin). apply grouped_In in Hin.
    destruct Hin as (r & Hr & _ & Hm). eauto.
  - intros (r & Hr & Hm). exists (state r, m). split; [reflexivity|].
    apply grouped_In. eauto.
Qed.

Lemma group_states_In t s :
  In s (group_states t) <->
  exists r, In r t /\ state r = s /\ sales_method r <> None.
Proof.
  unfold group_states. rewrite sorted_unique_In, in_map_iff. split.
  - intros ([s' m] & <- & Hin). apply grouped_In in Hin.
    destruct Hin as (r & Hr & Hs & Hm). exists r. repeat split; trivial. congruence.
  - intros (r & Hr & Hs & Hm). destruct (sales_method r) as [m|] eqn:E; [|congruence].
    exists (s, m). split; [reflexivity|]. apply grouped_In. eauto.
Qed.

Lemma group_size_count t s m : group_size t s m = count_state_method t s m.
Proof.
  unfold group_size, count_state_method, grouped, has_method_eq. f_equal.
  induction t as [|r t IH]; [reflexivity|].
  cbn [flat_map filter].
  destruct (sales_method r) as [m'|]; cbn [app filter fst snd].
  - destruct (String.eqb (state r) s && String.eqb m' m); simpl; now rewrite IH.
  - rewrite andb_false_r. exact IH.
Qed.

Lemma fold_add_indicator keys x :
  NoDup keys -> In x keys ->
  fold_right Z.add 0%Z (map (fun m => if String.eqb x m then 1 else 0)%Z keys) = 1%Z.
Proof.
  induction 1 as [|k keys Hk Hnd IH]; simpl; [tauto|].
  intros [->|Hin].
  - rewrite String.eqb_refl.
    assert (fold_right Z.add 0%Z
              (map (fun m => if String.eqb x m then 1 else 0)%Z keys) = 0%Z) as ->;
      [|reflexivity].
    clear IH Hnd. induction keys as [|y keys IH]; simpl; [reflexivity|].
    destruct (String.eqb_spec x y) as [->|_]; [simpl in Hk; tauto|].
    rewrite IH; [reflexivity|]. simpl in Hk. tauto.
  - destruct (String.eqb_spec x k) as [->|_]; [contradiction|].
    now rewrite IH.
Qed.

Lemma fold_add_pointwise {A} (f g : A -> Z) keys :
  fold_right Z.add 0%Z (map (fun m => f m + g m)%Z keys) =
  (fold_right Z.add 0%Z (map f keys) + fold_right Z.add 0%Z (map g keys))%Z.
Proof. induction keys; simpl; lia. Qed.

Lemma fold_add_zero {A} (keys : list A) :
  fold_right Z.add 0%Z (map (fun _ => 0%Z) keys) = 0%Z.
Proof. induction keys; simpl; lia. Qed.

(** Summing the sizes of the groups of one state over the methods counts
    the grouped rows of that state. *)
Lemma fold_add_group_sizes (l : list (string * string)) s keys :
  NoDup keys ->
  (forall k, In k l -> In (snd k) keys) ->
  fold_right Z.add 0%Z
    (map (fun m => Z.of_nat (List.length
            (filter (fun k => String.eqb (fst k) s && String.eqb (snd k) m) l))) keys)
  = Z.of_nat (List.length (filter (fun k => String.eqb (fst k) s) l)).
Proof.
  intros Hnd. induction l as [|k l IH]; intros Hin.
  - simpl. apply fold_add_zero.
  - cbn [filter]. destruct (String.eqb (fst k) s) eqn:Es; cbn [andb].
    + rewrite (map_ext _ (fun m =>
        (if String.eqb (snd k) m then 1 else 0) +
        Z.of_nat (List.length
          (filter (fun k => String.eqb (fst k) s && String.eqb (snd k) m) l)))%Z).
      * rewrite fold_add_pointwise, IH by (intros; apply Hin; now right).
        rewrite fold_add_indicator; [|exact Hnd|apply Hin; now left].
        simpl List.length. lia.
      * intros m. destruct (String.eqb (snd k) m); simpl List.length; lia.
    + apply IH. intros; apply Hin; now right.
Qed.

Lemma row_sum_count t s : row_sum (size_row t s) = count_state t s.
Proof.
  unfold row_sum, size_row. rewrite map_map. cbn [snd].
  unfold group_size. rewrite fold_add_group_sizes.
  - unfold count_state, grouped, has_method. f_equal.
    induction t as [|r t IH]; [reflexivity|].
    cbn [flat_map filter].
    destruct (sales_method r) as [m'|]; cbn [app filter fst].
    + rewrite andb_true_r. destruct (String.eqb (state r) s); simpl; now rewrite IH.
    + rewrite andb_false_r. exact IH.
  - apply sorted_unique_NoDup.
  - intros k Hk. apply sorted_unique_In. now apply in_map.
Qed.

Lemma count_state_pos t s : In s (group_states t) -> (0 < count_state t s)%Z.
Proof.
  intros H. apply group_states_In in H. destruct H as (r & Hr & Hs & Hm).
  unfold count_state.
  assert (Hin : In r (filter (fun r => String.eqb (state r) s && has_method r) t)).
  { apply filter_In. split; [exact Hr|].
    unfold has_method. rewrite Hs, String.eqb_refl.
    destruct (sales_method r); [reflexivity | congruence]. }
  destruct (filter _ t); [destruct Hin | simpl List.length; lia].
Qed.

(** *** The percentage cells *)

Lemma percent_row_size_row t s :
  percent_row (size_row t s) =
  map (fun m => (m, (inject_Z (count_state_method t s m)
                     / inject_Z (count_state t s) * 100)%Q))
      (group_methods t).
Proof.
  unfold percent_row. rewrite row_sum_count.
  unfold size_row. rewrite map_map. apply map_ext.
  intros m. cbn [fst snd]. now rewrite group_size_count.
Qed.

Lemma percent_lookup t s c :
  In c (group_methods t) ->
  dict_get (percent_row (size_row t s)) c =
  Some (inject_Z (count_state_method t s c) / inject_Z (count_state t s) * 100)%Q.
Proof.
  intros H. rewrite percent_row_size_row.
  now apply (dict_get_keyed
    (fun m => (inject_Z (count_state_method t s m) / inject_Z (count_state t s) * 100)%Q)).
Qed.

Lemma select_In {V} cols (cells : dict V) c v :
  In (c, v) (select cols cells) <-> In c cols /\ dict_get cells c = Some v.
Proof.
  unfold select. rewrite in_flat_map. split.
  - intros (x & Hx & Hin). destruct (dict_get cells x) as [w|] eqn:E; simpl in Hin; [|tauto].
    destruct Hin as [H|[]]. injection H as <- <-. auto.
  - intros [Hc Hv]. exists c. split; [exact Hc|]. rewrite Hv. now left.
Qed.

Lemma select_keys {V} cols (cells : dict V) :
  (forall c, In c cols -> dict_get cells c <> None) ->
  map fst (select cols cells) = cols.
Proof.
  unfold select. induction cols as [|c cols IH]; intros H; [reflexivity|].
  cbn [flat_map]. specialize (H c (or_introl eq_refl)) as Hc.
  destruct (dict_get cells c); [|congruence].
  cbn [app map fst]. f_equal. apply IH. intros; apply H; now right.
Qed.

(** *** The row maximum and its label *)

Lemma NoDup_split_unique {A} (d : A) a1 :
  forall a2 b1 b2,
    NoDup (a1 ++ d :: a2) -> a1 ++ d :: a2 = b1 ++ d :: b2 -> a1 = b1.
Proof.
  induction a1 as [|x a1 IH]; intros a2 [|y b1] b2 Hnd Heq; simpl in *.
  - reflexivity.
  - injection Heq as <- ->. inversion Hnd as [|? ? Hn _]; subst.
    exfalso. apply Hn, in_elt.
  - injection Heq as -> <-. inversion Hnd as [|? ? Hn _]; subst.
    exfalso. apply Hn, in_elt.
  - injection Heq as <- Heq. inversion Hnd; subst.
    f_equal. eapply IH; eassumption.
Qed.

Lemma NoDup_keys_functional {V} (cells : dict V) c v v' :
  NoDup (map fst cells) -> In (c, v) cells -> In (c, v') cells -> v = v'.
Proof.
  induction cells as [|[k w] cells IH]; simpl; [tauto|].
  intros Hnd H1 H2. inversion Hnd as [|? ? Hn Hnd']; subst.
  destruct H1 as [H1|H1], H2 as [H2|H2].
  - congruence.
  - injection H1 as -> ->. exfalso. apply Hn.
    change c with (fst (c, v')). now apply in_map.
  - injection H2 as -> ->. exfalso. apply Hn.
    change c with (fst (c, v)). now apply in_map.
  - now apply IH.
Qed.

Lemma idxmax_row_max (cells : dict Q) :
  cells <> [] -> NoDup (map fst cells) ->
  exists d vd s,
    idxmax cells = Some d /\ row_max cells = Some s /\ (s == vd)%Q /\
    In (d, vd) cells /\
    (forall c v, In (c, v) cells -> (v <= vd)%Q) /\
    (forall c v, precedes (map fst cells) c d -> In (c, v) cells -> (v < vd)%Q).
Proof.
  destruct cells as [|[c0 v0] l]; [congruence|]. intros _ Hnd.
  destruct (argmax_from (c0, v0) l) as [d vd] eqn:Eres.
  exists d, vd, (fold_left Qmaxb (map snd l) v0).
  cbn [idxmax row_max]. rewrite Eres. cbn [fst].
  split; [reflexivity|]. split; [reflexivity|].
  split; [|split; [|split]].
  - change vd with (snd (d, vd)). rewrite <- Eres.
    apply fold_Qmaxb_argmax. reflexivity.
  - rewrite <- Eres. apply argmax_from_In.
  - intros c v Hin. change vd with (snd (d, vd)). rewrite <- Eres.
    now apply (argmax_from_upper (c0, v0) l (c, v)).
  - intros c v (l1 & l2 & l3 & Hpre) Hin.
    destruct (argmax_from_split l (c0, v0)) as (L1 & L2 & Hsplit & H1 & _).
    rewrite Eres in Hsplit, H1. cbn [snd] in H1.
    assert (Hkeys : map fst L1 = l1 ++ c :: l2).
    { apply (NoDup_split_unique d _ (map fst L2) _ l3).
      - rewrite Hsplit, map_app in Hnd. exact Hnd.
      - rewrite <- app_assoc. cbn [app]. rewrite <- Hpre, Hsplit, map_app.
        reflexivity. }
    assert (Hc : In c (map fst L1)) by (rewrite Hkeys; apply in_elt).
    apply in_map_iff in Hc. destruct Hc as ([c' v'] & Hc' & Hin').
    cbn [fst] in Hc'. subst c'.
    rewrite Forall_forall in H1. specialize (H1 _ Hin'). cbn [snd] in H1.
    rewrite (NoDup_keys_functional _ c v v' Hnd Hin); [exact H1|].
    rewrite Hsplit. apply in_or_app. now left.
Qed.

(** *** When the aggregation returns, and its independence of the row order *)

Lemma calculate_geographic_dominance_returns t :
  (forall c, In c numeric_cols -> exists x, In x t /\ sales_method x = Some c) ->
  exists out, calculate_geographic_dominance t = Ok out.
Proof.
  intros H. eexists. apply calculate_geographic_dominance_Ok.
  split; [|reflexivity]. intros c Hc. apply group_methods_In. auto.
Qed.

Lemma Permutation_filter_length {A} (f : A -> bool) l l' :
  Permutation l l' -> List.length (filter f l) = List.length (filter f l').
Proof.
  induction 1 as [|x l l' _ IH|x y l|l l' l'' _ IH1 _ IH2]; simpl.
  - reflexivity.
  - destruct (f x); simpl; congruence.
  - destruct (f x), (f y); reflexivity.
  - congruence.
Qed.

Lemma calculate_geographic_dominance_Permutation t1 t2 :
  Permutation t1 t2 ->
  calculate_geographic_dominance t1 = calculate_geographic_dominance t2.
Proof.
  intros HP. rewrite !calculate_geographic_dominance_unfold.
  assert (Hin : forall x, In x t1 <-> In x t2).
  { intros x. split; apply Permutation_in; [exact HP | now apply Permutation_sym]. }
  assert (Hm : group_methods t1 = group_methods t2).
  { apply sorted_same_set; try apply sorted_unique_sorted.
    intros m. fold (group_methods t1) (group_methods t2).
    rewrite !group_methods_In. split; intros (r & Hr & H); exists r;
      (split; [now apply Hin | exact H]). }
  assert (Hs : group_states t1 = group_states t2).
  { apply sorted_same_set; try apply sorted_unique_sorted.
    intros s. fold (group_states t1) (group_states t2).
    rewrite !group_states_In. split; intros (r & Hr & H); exists r;
      (split; [now apply Hin | exact H]). }
  rewrite Hm, Hs.
  destruct (missing_labels numeric_cols (group_methods t2)); [|reflexivity].
  f_equal. apply map_ext. intros s. unfold choropleth_of.
  rewrite !percent_row_size_row, Hm.
  assert (Hrow : forall m,
             (inject_Z (count_state_method t1 s m) / inject_Z (count_state t1 s) * 100)%Q
             = (inject_Z (count_state_method t2 s m) / inject_Z (count_state t2 s) * 100)%Q).
  { intros m. unfold count_state_method, count_state.
    now rewrite (Permutation_filter_length _ t1 t2 HP),
                (Permutation_filter_length (fun r => String.eqb (state r) s && has_method r)
                   t1 t2 HP). }
  rewrite (map_ext _ _ (fun m => f_equal (pair m) (Hrow m))). reflexivity.
Qed.

Lemma numeric_cols_NoDup : NoDup numeric_cols.
Proof.
  unfold numeric_cols. repeat constructor; simpl; intuition discriminate.
Qed.

Lemma Forall2_In_r {A B} (R : A -> B -> Prop) l l' b :
  Forall2 R l l' -> In b l' -> exists a, In a l /\ R a b.
Proof.
  induction 1 as [|x y l l' Hxy _ IH]; simpl; [tauto|].
  intros [<-|Hb]; [eauto|]. destruct (IH Hb) as (a & Ha & HR). eauto.
Qed.

Lemma load_sales_data_standardized csv cleaned :
  load_sales_data csv = Ok cleaned -> methods_standardized cleaned.
Proof.
  intros H x m Hx Hm. apply load_sales_data_rows in H.
  destruct (Forall2_In_r _ _ _ _ H Hx) as (r & _ & _ & Hm' & _).
  apply (method_of_canonical r). congruence.
Qed.

End Aggregator.

(** * The cleaning stage: row count, tenure cap, imputation *)

(** Closed statements about the sample tables are settled by evaluation. *)
Ltac evaluate := vm_compute; reflexivity.

(** C5: cleaning never drops or adds rows: whenever [load_sales_data]
    returns a table it has as many rows as the input, and it does return
    one for every table with at least one row in which no record lacks both
    a revenue and a mapped method. *)
Theorem cleaning_keeps_row_count :
  (forall csv cleaned,
      load_sales_data csv = Ok cleaned ->
      List.length cleaned = List.length csv) /\
  (forall csv,
      csv <> [] ->
      (forall r, In r csv -> revenue r = None -> method_of r <> None) ->
      exists cleaned,
        load_sales_data csv = Ok cleaned /\
        List.length cleaned = List.length csv).
Proof.
  assert (Hlen : forall csv cleaned,
             load_sales_data csv = Ok cleaned ->
             List.length cleaned = List.length csv).
  { intros csv cleaned H. apply load_sales_data_rows in H.
    symmetry. exact (Forall2_length H). }
  split; [exact Hlen|].
  intros csv Hne Hall.
  destruct (load_sales_data_succeeds csv Hne Hall) as [cleaned Hc].
  exists cleaned. split; [exact Hc | now apply Hlen].
Qed.

(** The three-row sample is cleaned into three rows. *)
Lemma cleaning_keeps_row_count_witness :
  load_sales_data call_10_null_30 = Ok call_10_null_30_cleaned /\
  List.length call_10_null_30_cleaned = List.length call_10_null_30.
Proof.
  assert (H : load_sales_data call_10_null_30 = Ok call_10_null_30_cleaned)
    by evaluate.
  split; [exact H|].
  exact (proj1 cleaning_keeps_row_count call_10_null_30 call_10_null_30_cleaned H).
Defined.

(** C6: a tenure above 39 becomes exactly 39 and any other tenure is kept,
    whatever its sign; 45 becomes 39, 39 stays 39 and 5 stays 5. *)
Theorem tenure_capped_at_39 :
  (forall csv cleaned i r,
      load_sales_data csv = Ok cleaned ->
      nth_error csv i = Some r ->
      exists r',
        nth_error cleaned i = Some r' /\
        ((39 < years_as_customer r)%Z -> years_as_customer r' = 39%Z) /\
        ((years_as_customer r <= 39)%Z ->
         years_as_customer r' = years_as_customer r)) /\
  map years_as_customer call_10_null_30 = [5; 45; 39]%Z /\
  (exists cleaned,
      load_sales_data call_10_null_30 = Ok cleaned /\
      map years_as_customer cleaned = [5; 39; 39]%Z).
Proof.
  split.
  - intros csv cleaned i r H Hi.
    destruct (load_sales_data_row csv cleaned i r H Hi) as (r' & Hr' & _ & _ & Hy & _).
    exists r'. split; [exact Hr'|]. rewrite Hy.
    destruct (Z.ltb_spec 39 (years_as_customer r)); split; intros; lia.
  - split; [reflexivity|].
    exists call_10_null_30_cleaned. split; evaluate.
Qed.

(** The second record of the sample has tenure 45 and comes out with 39. *)
Lemma tenure_capped_at_39_witness :
  load_sales_data call_10_null_30 = Ok call_10_null_30_cleaned /\
  nth_error call_10_null_30 1 = Some (mkRow "Texas" (Some "Call") None 45) /\
  exists r',
    nth_error call_10_null_30_cleaned 1 = Some r' /\
    ((39 < 45)%Z -> years_as_customer r' = 39%Z) /\
    ((45 <= 39)%Z -> years_as_customer r' = 45%Z).
Proof.
  assert (H : load_sales_data call_10_null_30 = Ok call_10_null_30_cleaned)
    by evaluate.
  split; [exact H|]. split; [reflexivity|].
  exact (proj1 tenure_capped_at_39 call_10_null_30 call_10_null_30_cleaned 1%nat
               (mkRow "Texas" (Some "Call") None 45) H eq_refl).
Defined.

(** C2: in the cleaned table a record that had a revenue keeps it, and a
    record that had none is filed under a canonical method and receives the
    mean of the known revenues of the records filed under that method
    (missing revenues left out of the mean); for [Call] with revenues
    10, missing, 30 the missing one becomes 20. *)
Theorem missing_revenue_gets_method_mean :
  (forall csv cleaned i r,
      load_sales_data csv = Ok cleaned ->
      nth_error csv i = Some r ->
      exists r',
        nth_error cleaned i = Some r' /\
        match revenue r with
        | Some v => revenue r' = Some v
        | None =>
            exists m,
              sales_method r' = Some m /\ In m numeric_cols /\
              match known_revenues csv m with
              | [] => revenue r' = None
              | v :: vs =>
                  revenue r' =
                  Some (Qsum (v :: vs) / inject_Z (Z.of_nat (List.length (v :: vs))))%Q
              end
        end) /\
  known_revenues call_10_null_30 "Call" = [10%Q; 30%Q] /\
  (exists cleaned v,
      load_sales_data call_10_null_30 = Ok cleaned /\
      map revenue cleaned = [Some 10%Q; Some v; Some 30%Q] /\
      (v == 20)%Q).
Proof.
  split.
  - intros csv cleaned i r H Hi.
    destruct (load_sales_data_row csv cleaned i r H Hi) as (r' & Hr' & _ & Hm & _ & Hv).
    exists r'. split; [exact Hr'|].
    destruct (revenue r) as [v|]; [exact Hv|].
    destruct (method_of r) as [m|] eqn:Em; [|contradiction].
    exists m. split; [exact Hm|]. split; [now apply (method_of_canonical r)|].
    rewrite Hv. unfold mean. rewrite known_revenues_standardized.
    destruct (known_revenues csv m); reflexivity.
  - split; [reflexivity|].
    exists call_10_null_30_cleaned, (40 # 2)%Q.
    repeat split; evaluate.
Qed.

(** The second record of the sample has no revenue and receives the mean of
    the known [Call] revenues. *)
Lemma missing_revenue_gets_method_mean_witness :
  load_sales_data call_10_null_30 = Ok call_10_null_30_cleaned /\
  nth_error call_10_null_30 1 = Some (mkRow "Texas" (Some "Call") None 45) /\
  exists r',
    nth_error call_10_null_30_cleaned 1 = Some r' /\
    exists m,
      sales_method r' = Some m /\ In m numeric_cols /\
      match known_revenues call_10_null_30 m with
      | [] => revenue r' = None
      | v :: vs =>
          revenue r' =
          Some (Qsum (v :: vs) / inject_Z (Z.of_nat (List.length (v :: vs))))%Q
      end.
Proof.
  assert (H : load_sales_data call_10_null_30 = Ok call_10_null_30_cleaned)
    by evaluate.
  split; [exact H|]. split; [reflexivity|].
  exact (proj1 missing_revenue_gets_method_mean
               call_10_null_30 call_10_null_30_cleaned 1%nat
               (mkRow "Texas" (Some "Call") None 45) H eq_refl).
Defined.

(** * The cleaning stage: methods without a mapping, methods without revenue *)

(** C10: a record whose method is unmapped and whose revenue is missing
    makes the imputation step raise the lookup error of the key NaN; a table
    (with at least one row) that has no such record is cleaned without
    error, and its records with an unmapped method and a known revenue come
    out with a missing method and their revenue. *)
Theorem unmapped_method_without_revenue_raises :
  (forall csv r,
      In r csv -> method_of r = None -> revenue r = None ->
      load_sales_data csv = Raise (KeyError None)) /\
  (forall csv,
      csv <> [] ->
      (forall r, In r csv -> revenue r = None -> method_of r <> None) ->
      exists cleaned,
        load_sales_data csv = Ok cleaned /\
        forall i r v,
          nth_error csv i = Some r -> method_of r = None -> revenue r = Some v ->
          exists r',
            nth_error cleaned i = Some r' /\
            sales_method r' = None /\ revenue r' = Some v) /\
  load_sales_data fax_without_revenue = Raise (KeyError None) /\
  load_sales_data fax_table = Ok fax_table_cleaned.
Proof.
  split; [|split; [|split; evaluate]].
  - intros csv r Hr Hm Hrev. now apply (load_sales_data_raises csv r).
  - intros csv Hne Hall.
    destruct (load_sales_data_succeeds csv Hne Hall) as [cleaned Hc].
    exists cleaned. split; [exact Hc|].
    intros i r v Hi Hm Hrev.
    destruct (load_sales_data_row csv cleaned i r Hc Hi) as (r' & Hr' & _ & Hm' & _ & Hv).
    exists r'. rewrite Hrev in Hv. rewrite Hm in Hm'. auto.
Qed.

(** A [fax] record without revenue makes cleaning raise. *)
Lemma unmapped_method_without_revenue_raises_witness :
  In (mkRow "Ohio" (Some "fax") None 2) fax_without_revenue /\
  method_of (mkRow "Ohio" (Some "fax") None 2) = None /\
  load_sales_data fax_without_revenue = Raise (KeyError None).
Proof.
  assert (Hin : In (mkRow "Ohio" (Some "fax") None 2) fax_without_revenue)
    by (right; left; reflexivity).
  split; [exact Hin|]. split; [reflexivity|].
  exact (proj1 unmapped_method_without_revenue_raises fax_without_revenue
               (mkRow "Ohio" (Some "fax") None 2) Hin eq_refl eq_refl).
Defined.

(** C1, as stated, fails: the table [fax_table] holds a record whose raw
    method ["fax"] has no entry in the mapping, and cleaning returns
    normally, passing the record on with a missing method. *)
Lemma unmapped_method_is_not_rejected :
  In (mkRow "Ohio" (Some "fax") (Some 7%Q) 2) fax_table /\
  dict_get sales_method_mapping "fax" = None /\
  load_sales_data fax_table = Ok fax_table_cleaned /\
  nth_error fax_table_cleaned 1 = Some (mkRow "Ohio" None (Some 7%Q) 2).
Proof.
  split; [right; left; reflexivity|].
  repeat split; evaluate.
Qed.

(** C1 (amended): a record whose raw method has no entry in the mapping is
    not rejected by the standardization step, which sets its method to
    missing and changes nothing else; whenever cleaning returns, the record
    is in the cleaned table with a missing method; cleaning does return when
    no record lacks both a revenue and a mapped method, and otherwise raises
    the lookup error of the imputation step. *)
Theorem unmapped_method_becomes_missing csv i r :
  nth_error csv i = Some r ->
  method_of r = None ->
  nth_error (standardize_methods csv) i = Some (set_sales_method r None) /\
  (forall cleaned,
      load_sales_data csv = Ok cleaned ->
      exists r', nth_error cleaned i = Some r' /\ sales_method r' = None /\
                 state r' = state r) /\
  ((forall x, In x csv -> revenue x = None -> method_of x <> None) ->
   exists cleaned, load_sales_data csv = Ok cleaned) /\
  ((exists x, In x csv /\ revenue x = None /\ method_of x = None) ->
   load_sales_data csv = Raise (KeyError None)).
Proof.
  intros Hi Hm.
  assert (Hne : csv <> []) by (intros ->; destruct i; discriminate Hi).
  repeat split.
  - unfold standardize_methods. rewrite nth_error_map, Hi. cbn [option_map].
    fold (method_of r). now rewrite Hm.
  - intros cleaned Hc.
    destruct (load_sales_data_row csv cleaned i r Hc Hi) as (r' & Hr' & Hs & Hm' & _).
    exists r'. rewrite Hm in Hm'. auto.
  - intros Hall. now apply load_sales_data_succeeds.
  - intros (x & Hx & Hrev & Hmx). now apply (load_sales_data_raises csv x).
Qed.

(** The [fax] record of [fax_table] is standardized to a record without
    method. *)
Lemma unmapped_method_becomes_missing_witness :
  nth_error fax_table 1 = Some (mkRow "Ohio" (Some "fax") (Some 7%Q) 2) /\
  method_of (mkRow "Ohio" (Some "fax") (Some 7%Q) 2) = None /\
  nth_error (standardize_methods fax_table) 1 = Some (mkRow "Ohio" None (Some 7%Q) 2).
Proof.
  split; [reflexivity|]. split; [reflexivity|].
  exact (proj1 (unmapped_method_becomes_missing fax_table 1
                  (mkRow "Ohio" (Some "fax") (Some 7%Q) 2) eq_refl eq_refl)).
Defined.

(** C7, as stated, fails: in [call_without_revenue] the method [Call] is
    present and none of its records has a revenue, and cleaning returns
    normally, leaving the revenue of the [Call] record missing. *)
Lemma method_without_revenue_is_not_rejected :
  (exists r, In r call_without_revenue /\ method_of r = Some "Call") /\
  known_revenues call_without_revenue "Call" = [] /\
  load_sales_data call_without_revenue = Ok call_without_revenue_cleaned /\
  map revenue call_without_revenue_cleaned = [Some 10%Q; None].
Proof.
  split.
  - exists (mkRow "Ohio" (Some "Call") None 2).
    split; [right; left; reflexivity | reflexivity].
  - repeat split; evaluate.
Qed.

(** C7 (amended): when a method present in the data has no record with a
    known revenue, cleaning raises no error on that account: whenever it
    returns, the records of that method are in the cleaned table with their
    revenue still missing; it does return when no record lacks both a
    revenue and a mapped method, and the only error it can raise is the
    lookup error met on such a record. *)
Theorem method_without_revenue_stays_missing csv m :
  (exists r, In r csv /\ method_of r = Some m) ->
  known_revenues csv m = [] ->
  (forall cleaned i r,
      load_sales_data csv = Ok cleaned ->
      nth_error csv i = Some r -> method_of r = Some m ->
      exists r',
        nth_error cleaned i = Some r' /\
        sales_method r' = Some m /\ revenue r' = None) /\
  ((forall r, In r csv -> revenue r = None -> method_of r <> None) ->
   exists cleaned, load_sales_data csv = Ok cleaned) /\
  (forall e,
      load_sales_data csv = Raise e ->
      e = KeyError None /\
      exists r, In r csv /\ revenue r = None /\ method_of r = None).
Proof.
  intros (r0 & Hr0 & _) Hk.
  assert (Hne : csv <> []) by (intros ->; destruct Hr0).
  repeat split.
  - intros cleaned i r Hc Hi Hm.
    destruct (load_sales_data_row csv cleaned i r Hc Hi) as (r' & Hr' & _ & Hm' & _ & Hv).
    exists r'. split; [exact Hr'|]. split; [congruence|].
    rewrite (known_revenues_nil csv m r Hk (nth_error_In _ _ Hi) Hm), Hm in Hv.
    rewrite Hv. unfold mean. now rewrite known_revenues_standardized, Hk.
  - intros Hall. now apply load_sales_data_succeeds.
  - now apply (load_sales_data_error csv e).
  - now apply (load_sales_data_error csv e).
Qed.

(** The [Call] record of [call_without_revenue] stays without revenue. *)
Lemma method_without_revenue_stays_missing_witness :
  (exists r, In r call_without_revenue /\ method_of r = Some "Call") /\
  known_revenues call_without_revenue "Call" = [] /\
  exists r',
    nth_error call_without_revenue_cleaned 1 = Some r' /\
    sales_method r' = Some "Call" /\ revenue r' = None.
Proof.
  assert (H1 : exists r, In r call_without_revenue /\ method_of r = Some "Call").
  { exists (mkRow "Ohio" (Some "Call") None 2).
    split; [right; left; reflexivity | reflexivity]. }
  assert (H2 : load_sales_data call_without_revenue = Ok call_without_revenue_cleaned)
    by evaluate.
  split; [exact H1|]. split; [reflexivity|].
  exact (proj1 (method_without_revenue_stays_missing call_without_revenue "Call"
                  H1 eq_refl)
               call_without_revenue_cleaned 1%nat
               (mkRow "Ohio" (Some "Call") None 2) H2 eq_refl eq_refl).
Defined.

(** * The aggregation stage: dominance, shares, one row per state *)

Section Dominance.

Local Open Scope Q_scope.

(** The cells [idxmax] and [max] look at, in a row of the returned frame. *)
Lemma numeric_cells t s :
  (forall c, In c numeric_cols -> In c (group_methods t)) ->
  select numeric_cols (percent_row (size_row t s)) <> [] /\
  map fst (select numeric_cols (percent_row (size_row t s))) = numeric_cols.
Proof.
  intros Hall.
  assert (Hk : map fst (select numeric_cols (percent_row (size_row t s))) = numeric_cols).
  { apply select_keys. intros c Hc. rewrite percent_lookup by auto. discriminate. }
  split; [|exact Hk].
  intros E. rewrite E in Hk. discriminate Hk.
Qed.

(** C3: in every returned row the dominant method is one of the three
    canonical methods, its share is the dominance strength, no canonical
    method has a larger share, and every canonical method listed before it
    in the fixed order Call, Email, Email + Call has a strictly smaller share
    (so the first of several maximal methods wins); the result does not
    depend on the order of the records.  Counts Email 3, Call 7,
    Email + Call 0 out of 10 give Call with strength 70, and a tie between
    Email and Call gives Call. *)
Theorem dominant_method_is_first_maximum :
  (forall t out r,
      calculate_geographic_dominance t = Ok out -> In r out ->
      exists d s,
        dominant_method r = Some d /\ dominance_strength r = Some s /\
        In d numeric_cols /\
        (exists v, share r d = Some v /\ v == s) /\
        (forall c, In c numeric_cols -> exists v, share r c = Some v /\ v <= s) /\
        (forall c v, precedes numeric_cols c d -> share r c = Some v -> v < s)) /\
  (forall t1 t2,
      Permutation t1 t2 ->
      calculate_geographic_dominance t1 = calculate_geographic_dominance t2) /\
  (count_state_method texas_3_7_0 "Texas" "Email" = 3%Z /\
   count_state_method texas_3_7_0 "Texas" "Call" = 7%Z /\
   count_state_method texas_3_7_0 "Texas" "Email + Call" = 0%Z /\
   count_state texas_3_7_0 "Texas" = 10%Z /\
   exists out r s,
     calculate_geographic_dominance texas_3_7_0 = Ok out /\ In r out /\
     out_state r = "Texas" /\ dominant_method r = Some "Call" /\
     dominance_strength r = Some s /\ s == 70) /\
  (exists out r s,
     calculate_geographic_dominance texas_tie = Ok out /\ In r out /\
     out_state r = "Texas" /\
     share r "Call" = Some s /\ share r "Email" = Some s /\
     dominant_method r = Some "Call" /\ dominance_strength r = Some s).
Proof.
  split; [|split; [exact calculate_geographic_dominance_Permutation|split]].
  - intros t out r Hout Hr.
    apply calculate_geographic_dominance_Ok in Hout. destruct Hout as [Hall ->].
    apply in_map_iff in Hr. destruct Hr as (st & <- & _).
    destruct (numeric_cells t st Hall) as [Hne Hkeys].
    assert (Hnd : NoDup (map fst (select numeric_cols (percent_row (size_row t st)))))
      by (rewrite Hkeys; exact numeric_cols_NoDup).
    destruct (idxmax_row_max _ Hne Hnd) as (d & vd & s & Hd & Hs & Hsv & Hin & Hle & Hlt).
    exists d, s. unfold share. cbn [choropleth_of dominant_method dominance_strength pct].
    apply select_In in Hin. destruct Hin as [Hdc Hdv].
    repeat split; trivial.
    + exists vd. split; [exact Hdv | now symmetry].
    + intros c Hc. rewrite percent_lookup by auto. eexists. split; [reflexivity|].
      rewrite Hsv. apply (Hle c). apply select_In. split; [exact Hc|].
      now apply percent_lookup, Hall.
    + intros c v Hpre Hv. rewrite Hsv. apply (Hlt c).
      * now rewrite Hkeys.
      * apply select_In. split; [|exact Hv].
        destruct Hpre as (l1 & l2 & l3 & ->). apply in_elt.
  - repeat split; try evaluate.
    eexists _, (choropleth_of texas_3_7_0 "Texas"), _.
    split; [evaluate|].
    split; [right; left; evaluate|].
    repeat split; evaluate.
  - eexists _, (choropleth_of texas_tie "Texas"), _.
    split; [evaluate|].
    split; [right; left; evaluate|].
    repeat split; evaluate.
Qed.

End Dominance.

(** The Texas row of [texas_tie], where [Email] and [Call] tie. *)
Lemma dominant_method_is_first_maximum_witness :
  calculate_geographic_dominance texas_tie
  = Ok (map (choropleth_of texas_tie) ["Ohio"; "Texas"]) /\
  In (choropleth_of texas_tie "Texas") (map (choropleth_of texas_tie) ["Ohio"; "Texas"]) /\
  exists d s,
    dominant_method (choropleth_of texas_tie "Texas") = Some d /\
    dominance_strength (choropleth_of texas_tie "Texas") = Some s /\
    In d numeric_cols /\
    (exists v, share (choropleth_of texas_tie "Texas") d = Some v /\ (v == s)%Q) /\
    (forall c, In c numeric_cols ->
               exists v, share (choropleth_of texas_tie "Texas") c = Some v /\ (v <= s)%Q) /\
    (forall c v, precedes numeric_cols c d ->
                 share (choropleth_of texas_tie "Texas") c = Some v -> (v < s)%Q).
Proof.
  assert (H : calculate_geographic_dominance texas_tie
              = Ok (map (choropleth_of texas_tie) ["Ohio"; "Texas"]))
    by evaluate.
  assert (Hin : In (choropleth_of texas_tie "Texas")
                   (map (choropleth_of texas_tie) ["Ohio"; "Texas"]))
    by (right; left; reflexivity).
  split; [exact H|]. split; [exact Hin|].
  exact (proj1 dominant_method_is_first_maximum texas_tie _ _ H Hin).
Defined.

Section Shares.

Local Open Scope Q_scope.

(** With standardized methods, the records of a state that carry a method
    are those of the three canonical methods. *)
Lemma count_state_canonical t s :
  methods_standardized t ->
  count_state t s =
  (count_state_method t s "Call" + count_state_method t s "Email"
   + count_state_method t s "Email + Call")%Z.
Proof.
  unfold count_state, count_state_method, has_method, has_method_eq.
  induction t as [|r t IH]; intros Hstd; [reflexivity|].
  assert (IH' := IH (fun x m Hx => Hstd x m (or_intror Hx))). clear IH.
  cbn [filter].
  destruct (String.eqb (state r) s); cbn [andb]; [|exact IH'].
  destruct (sales_method r) as [m|] eqn:Em; [|exact IH'].
  specialize (Hstd r m (or_introl eq_refl) Em).
  destruct Hstd as [<-|[<-|[<-|[]]]]; cbn -[filter Z.of_nat Z.add List.length];
    cbn [List.length]; lia.
Qed.

Lemma percent_sum (a b c n : Z) :
  (0 < n)%Z -> (n = a + b + c)%Z ->
  inject_Z a / inject_Z n * 100 + inject_Z b / inject_Z n * 100
  + inject_Z c / inject_Z n * 100 == 100.
Proof.
  intros Hn ->. rewrite !inject_Z_plus. field.
  rewrite <- !inject_Z_plus. intros H.
  unfold Qeq, inject_Z in H. cbn [Qnum Qden] in H. lia.
Qed.

End Shares.

(** C4, as stated, fails.  In the cleaned table [only_calls] the state Texas
    is present and has no [Email] record, yet no share 0 is produced: the
    aggregation raises.  In the cleaned table [texas_with_fax_cleaned] Texas
    has four records, one of them [Call], and the share of [Call] is 100/3,
    not 100 * 1/4: the record without a method is counted in no total. *)
Lemma shares_are_not_over_all_records :
  (load_sales_data only_calls = Ok only_calls /\
   In "Texas" (map state only_calls) /\
   count_state_method only_calls "Texas" "Email" = 0%Z /\
   calculate_geographic_dominance only_calls
   = Raise (KeyError_columns ["Email"; "Email + Call"])) /\
  (load_sales_data texas_with_fax = Ok texas_with_fax_cleaned /\
   List.length (filter (fun x => String.eqb (state x) "Texas") texas_with_fax_cleaned)
   = 4%nat /\
   count_state_method texas_with_fax_cleaned "Texas" "Call" = 1%Z /\
   exists out r v,
     calculate_geographic_dominance texas_with_fax_cleaned = Ok out /\
     In r out /\ out_state r = "Texas" /\ share r "Call" = Some v /\
     (v == 100 * 1 / 3)%Q /\ ~ (v == 100 * 1 / 4)%Q).
Proof.
  split.
  - split; [evaluate|].
    split; [left; reflexivity|].
    split; evaluate.
  - repeat split; try evaluate.
    eexists _, (choropleth_of texas_with_fax_cleaned "Texas"), _.
    split; [evaluate|].
    split; [left; evaluate|].
    split; [reflexivity|].
    split; [evaluate|].
    split; [evaluate|].
    vm_compute. discriminate.
Qed.

(** C4 (amended): for a table with standardized methods the aggregation
    returns as soon as each of the three canonical methods occurs in some
    record, and in every row it returns, each canonical method [c] has the
    share 100 * count(state, c) / total(state), where total(state) > 0 counts
    the records of the state that carry a method; the share of a method that
    never occurs for the state is 0, and the three shares sum to 100. *)
Theorem shares_are_percentages t :
  methods_standardized t ->
  ((forall c, In c numeric_cols -> exists x, In x t /\ sales_method x = Some c) ->
   exists out, calculate_geographic_dominance t = Ok out) /\
  forall out r,
    calculate_geographic_dominance t = Ok out -> In r out ->
    (0 < count_state t (out_state r))%Z /\
    (forall c,
        In c numeric_cols ->
        exists v,
          share r c = Some v /\
          (v == 100 * inject_Z (count_state_method t (out_state r) c)
                / inject_Z (count_state t (out_state r)))%Q /\
          (count_state_method t (out_state r) c = 0%Z -> (v == 0)%Q)) /\
    (exists a b c,
        share r "Call" = Some a /\ share r "Email" = Some b /\
        share r "Email + Call" = Some c /\ (a + b + c == 100)%Q).
Proof.
  intros Hstd. split; [apply calculate_geographic_dominance_returns|].
  intros out r Hout Hr.
  apply calculate_geographic_dominance_Ok in Hout. destruct Hout as [Hall ->].
  apply in_map_iff in Hr. destruct Hr as (s & <- & Hs).
  unfold share. cbn [choropleth_of out_state pct].
  pose proof (count_state_pos t s Hs) as Hpos.
  split; [exact Hpos|]. split.
  - intros c Hc. rewrite percent_lookup by auto.
    eexists. split; [reflexivity|]. split.
    + unfold Qdiv. ring.
    + intros ->. unfold Qdiv. change (inject_Z 0) with 0%Q. ring.
  - rewrite !percent_lookup by (apply Hall; simpl; tauto).
    do 3 eexists. repeat split.
    apply percent_sum; [exact Hpos | now apply count_state_canonical].
Qed.

(** The Texas row of [texas_3_7_0]: shares 70, 30 and 0. *)
Lemma shares_are_percentages_witness :
  methods_standardized texas_3_7_0 /\
  calculate_geographic_dominance texas_3_7_0
  = Ok (map (choropleth_of texas_3_7_0) ["Ohio"; "Texas"]) /\
  exists a b c,
    share (choropleth_of texas_3_7_0 "Texas") "Call" = Some a /\
    share (choropleth_of texas_3_7_0 "Texas") "Email" = Some b /\
    share (choropleth_of texas_3_7_0 "Texas") "Email + Call" = Some c /\
    (a + b + c == 100)%Q.
Proof.
  assert (Hstd : methods_standardized texas_3_7_0).
  { intros x m Hx Hm. vm_compute in Hx.
    repeat (destruct Hx as [<-|Hx]; [injection Hm as <-; simpl; tauto|]).
    destruct Hx. }
  assert (H : calculate_geographic_dominance texas_3_7_0
              = Ok (map (choropleth_of texas_3_7_0) ["Ohio"; "Texas"]))
    by evaluate.
  split; [exact Hstd|]. split; [exact H|].
  refine (proj2 (proj2 (proj2 (shares_are_percentages texas_3_7_0 Hstd) _
                          (choropleth_of texas_3_7_0 "Texas") H _))).
  right; left; reflexivity.
Defined.

(** C8, as stated, fails: Ohio is a state of the cleaned table
    [ohio_fax_only_cleaned], its only record has a missing method, and the
    aggregation returns a frame with a row for Texas and none for Ohio. *)
Lemma state_without_method_gets_no_row :
  load_sales_data ohio_fax_only = Ok ohio_fax_only_cleaned /\
  In "Ohio" (map state ohio_fax_only_cleaned) /\
  exists out,
    calculate_geographic_dominance ohio_fax_only_cleaned = Ok out /\
    map out_state out = ["Texas"].
Proof.
  split; [evaluate|].
  split; [do 3 right; left; reflexivity|].
  eexists. split; evaluate.
Qed.

(** C8 (amended): the aggregation returns as soon as each of the three
    canonical methods occurs in some record, whatever the state names; the
    frame it returns has exactly one row per distinct state that has at least
    one record with a method (a state whose records all have a missing
    method gets no row); the abbreviation of a row is the entry of its state
    in [state_abbrev], missing when there is none, and such a state keeps its
    row. *)
Theorem one_row_per_state_with_a_method t :
  ((forall c, In c numeric_cols -> exists x, In x t /\ sales_method x = Some c) ->
   exists out, calculate_geographic_dominance t = Ok out) /\
  forall out,
    calculate_geographic_dominance t = Ok out ->
    NoDup (map out_state out) /\
    (forall s,
        In s (map out_state out) <->
        exists x, In x t /\ state x = s /\ sales_method x <> None) /\
    (forall r, In r out -> state_abbrev_col r = dict_get state_abbrev (out_state r)) /\
    (forall x,
        In x t -> sales_method x <> None ->
        dict_get state_abbrev (state x) = None ->
        exists r, In r out /\ out_state r = state x /\ state_abbrev_col r = None).
Proof.
  split; [apply calculate_geographic_dominance_returns|].
  intros out Hout.
  apply calculate_geographic_dominance_Ok in Hout. destruct Hout as [_ ->].
  assert (Hstates : map out_state (map (choropleth_of t) (group_states t))
                    = group_states t).
  { rewrite map_map. cbn [choropleth_of out_state]. apply map_id. }
  rewrite Hstates. repeat split.
  - apply sorted_unique_NoDup.
  - now apply group_states_In.
  - now apply group_states_In.
  - intros r Hr. apply in_map_iff in Hr. destruct Hr as (s & <- & _). reflexivity.
  - intros x Hx Hm Hcode. exists (choropleth_of t (state x)).
    split; [|split; [reflexivity | exact Hcode]].
    apply in_map, group_states_In. eauto.
Qed.

(** Puerto Rico is not in [state_abbrev] and keeps its row, without code. *)
Lemma one_row_per_state_with_a_method_witness :
  calculate_geographic_dominance puerto_rico
  = Ok (map (choropleth_of puerto_rico) ["Puerto Rico"; "Texas"]) /\
  In (mkRow "Puerto Rico" (Some "Call") (Some 1%Q) 1) puerto_rico /\
  dict_get state_abbrev "Puerto Rico" = None /\
  exists r,
    In r (map (choropleth_of puerto_rico) ["Puerto Rico"; "Texas"]) /\
    out_state r = "Puerto Rico" /\ state_abbrev_col r = None.
Proof.
  assert (H : calculate_geographic_dominance puerto_rico
              = Ok (map (choropleth_of puerto_rico) ["Puerto Rico"; "Texas"]))
    by evaluate.
  assert (Hin : In (mkRow "Puerto Rico" (Some "Call") (Some 1%Q) 1) puerto_rico)
    by (right; left; reflexivity).
  split; [exact H|]. split; [exact Hin|]. split; [reflexivity|].
  refine (proj2 (proj2 (proj2 (proj2 (one_row_per_state_with_a_method puerto_rico) _ H)))
            (mkRow "Puerto Rico" (Some "Call") (Some 1%Q) 1) Hin _ eq_refl).
  discriminate.
Defined.

(** C9: when one of the three canonical methods occurs in no record of the
    table, the aggregation raises the lookup error of the column selection,
    and that method is among the labels reported missing. *)
Theorem absent_method_raises_KeyError t c :
  In c numeric_cols ->
  (forall x, In x t -> sales_method x <> Some c) ->
  exists missing,
    calculate_geographic_dominance t = Raise (KeyError_columns missing) /\
    In c missing.
Proof.
  intros Hc Hno. rewrite calculate_geographic_dominance_unfold.
  assert (Hin : In c (missing_labels numeric_cols (group_methods t))).
  { apply missing_labels_In. split; [exact Hc|].
    intros H. apply group_methods_In in H. destruct H as (x & Hx & Hm).
    exact (Hno x Hx Hm). }
  destruct (missing_labels numeric_cols (group_methods t)) as [|m l]; [destruct Hin|].
  exists (m :: l). split; [reflexivity | exact Hin].
Qed.

(** [only_calls] has no [Email] record. *)
Lemma absent_method_raises_KeyError_witness :
  In "Email" numeric_cols /\
  (forall x, In x only_calls -> sales_method x <> Some "Email") /\
  exists missing,
    calculate_geographic_dominance only_calls = Raise (KeyError_columns missing) /\
    In "Email" missing.
Proof.
  assert (Hc : In "Email" numeric_cols) by (right; left; reflexivity).
  assert (Hno : forall x, In x only_calls -> sales_method x <> Some "Email").
  { intros x [<-|[<-|[]]]; discriminate. }
  split; [exact Hc|]. split; [exact Hno|].
  exact (absent_method_raises_KeyError only_calls "Email" Hc Hno).
Defined.

(** * The sample numbers in binary64

    The shares and means above are exact rationals.  On the two samples the
    float64 computation of the source gives the same numbers exactly, while a
    sum of three float64 shares may miss 100 by a rounding error. *)

Remark percent_float_7_of_10 : percent_float 7%float 10%float = 70%float.
Proof. reflexivity. Qed.

Remark mean2_float_10_30 : mean2_float 10%float 30%float = 20%float.
Proof. reflexivity. Qed.

Remark percent_float_thirds :
  PrimFloat.add (PrimFloat.add (percent_float 1%float 3%float)
                               (percent_float 1%float 3%float))
                (percent_float 1%float 3%float)
  <> 100%float.
Proof. vm_compute. intros H. discriminate H. Qed.

(** * Further properties of the cleaning stage *)

Section CleanedTables.

Lemma row_ext (a b : row) :
  state a = state b -> sales_method a = sales_method b ->
  revenue a = revenue b -> years_as_customer a = years_as_customer b ->
  a = b.
Proof. destruct a, b; simpl; congruence. Qed.

Lemma Forall2_map_eq {A B C} (f : A -> C) (g : B -> C) l l' :
  Forall2 (fun a b => f a = g b) l l' -> map f l = map g l'.
Proof. induction 1; simpl; congruence. Qed.

Lemma Forall2_In_l {A B} (R : A -> B -> Prop) l l' a :
  Forall2 R l l' -> In a l -> exists b, In b l' /\ R a b.
Proof.
  induction 1 as [|x y l l' Hxy _ IH]; simpl; [tauto|].
  intros [<-|Ha]; [eauto|]. destruct (IH Ha) as (b & Hb & HR). eauto.
Qed.

Lemma canonical_is_fixed m :
  In m numeric_cols -> dict_get sales_method_mapping m = Some m.
Proof. intros [<-|[<-|[<-|[]]]]; reflexivity. Qed.

Lemma mean_None l : mean l = None <-> dropna l = [].
Proof.
  unfold mean. destruct (dropna l); split; intros H; try reflexivity; discriminate.
Qed.

(** A cleaned revenue is missing only when the raw one is and no record
    filed under the same method has a known revenue. *)
Lemma cleaned_revenue_None csv r r' :
  cleaned_from csv r r' -> revenue r' = None ->
  revenue r = None /\
  exists m, method_of r = Some m /\ known_revenues csv m = [].
Proof.
  intros (_ & _ & _ & Hv) Hnone.
  destruct (revenue r) as [v|]; [congruence|].
  destruct (method_of r) as [m|]; [|contradiction].
  split; [reflexivity|]. exists m. split; [reflexivity|].
  rewrite Hv in Hnone. apply mean_None in Hnone.
  now rewrite known_revenues_standardized in Hnone.
Qed.

Lemma cleaned_revenue_of_empty_method csv r r' m :
  In r csv -> cleaned_from csv r r' ->
  method_of r = Some m -> known_revenues csv m = [] ->
  revenue r' = None.
Proof.
  intros Hr (_ & _ & _ & Hv) Hm Hk.
  rewrite (known_revenues_nil csv m r Hk Hr Hm), Hm in Hv.
  rewrite Hv. apply mean_None. now rewrite known_revenues_standardized.
Qed.

Lemma cleaned_method_of csv cleaned x :
  load_sales_data csv = Ok cleaned -> In x cleaned -> method_of x = sales_method x.
Proof.
  intros H Hx. pose proof (load_sales_data_standardized csv cleaned H x) as Hstd.
  unfold method_of, map_cell. destruct (sales_method x) as [m|]; [|reflexivity].
  apply canonical_is_fixed. now apply Hstd.
Qed.

Lemma known_revenues_nil_intro t m :
  (forall x, In x t -> method_of x = Some m -> revenue x = None) ->
  known_revenues t m = [].
Proof.
  unfold known_revenues. induction t as [|x t IH]; intros H; [reflexivity|].
  cbn [flat_map]. rewrite IH by (intros; apply H; [now right | assumption]).
  destruct (method_of x) as [m'|] eqn:Em; [|reflexivity].
  destruct (revenue x) as [v|] eqn:Ev; [|reflexivity].
  destruct (String.eqb_spec m' m) as [->|_]; [|reflexivity].
  rewrite (H x (or_introl eq_refl) Em) in Ev. discriminate.
Qed.

Lemma Forall2_impl_In {A B} (R S : A -> B -> Prop) l l' :
  Forall2 R l l' ->
  (forall a b, In a l -> In b l' -> R a b -> S a b) ->
  Forall2 S l l'.
Proof.
  induction 1 as [|x y l l' Hxy _ IH]; intros HRS; constructor.
  - apply HRS; simpl; auto.
  - apply IH. intros a b Ha Hb. apply HRS; simpl; auto.
Qed.

Lemma Forall2_same {A} (l l' : list A) :
  Forall2 (fun a b => b = a) l l' -> l' = l.
Proof. induction 1; congruence. Qed.

(** A cleaned record is what cleaning the cleaned table makes of it. *)
Lemma cleaned_row_is_fixed csv cleaned a b :
  load_sales_data csv = Ok cleaned ->
  In a cleaned -> cleaned_from cleaned a b -> b = a.
Proof.
  intros H Ha (Hs & Hm & Hy & Hv).
  pose proof (load_sales_data_rows csv cleaned H) as HF.
  destruct (Forall2_In_r _ _ _ _ HF Ha) as (r & Hr & Hc).
  rewrite (cleaned_method_of csv cleaned a H Ha) in Hm, Hv.
  apply row_ext; trivial.
  - destruct (revenue a) as [v|] eqn:Ev; [exact Hv|].
    destruct (cleaned_revenue_None csv r a Hc Ev) as (_ & m & Hrm & Hk).
    assert (Ham : sales_method a = Some m)
      by (destruct Hc as (_ & Hc & _); congruence).
    rewrite Ham in Hv. rewrite Hv. apply mean_None.
    rewrite known_revenues_standardized. apply known_revenues_nil_intro.
    intros x Hx Hxm.
    destruct (Forall2_In_r _ _ _ _ HF Hx) as (y & Hy' & Hcy).
    apply (cleaned_revenue_of_empty_method csv y x m Hy' Hcy); [|exact Hk].
    rewrite (cleaned_method_of csv cleaned x H Hx) in Hxm.
    destruct Hcy as (_ & Hcy & _). congruence.
  - rewrite Hy. destruct Hc as (_ & _ & Hyc & _).
    destruct (Z.ltb_spec 39 (years_as_customer a)) as [Hgt|]; [|reflexivity].
    rewrite Hyc in Hgt.
    destruct (Z.ltb_spec 39 (years_as_customer r)); lia.
Qed.

End CleanedTables.

(** X1: what every record of a cleaned table satisfies: its tenure is at
    most 39; its method is missing or one of the three canonical labels; if
    its method is missing its revenue is not; and if its revenue is missing
    then so is the revenue of every cleaned record with the same method. *)
Theorem cleaned_table_invariants csv cleaned r' :
  load_sales_data csv = Ok cleaned ->
  In r' cleaned ->
  (years_as_customer r' <= 39)%Z /\
  (forall m, sales_method r' = Some m -> In m numeric_cols) /\
  (sales_method r' = None -> revenue r' <> None) /\
  (revenue r' = None ->
   forall x, In x cleaned -> sales_method x = sales_method r' -> revenue x = None).
Proof.
  intros H Hr'. pose proof (load_sales_data_rows csv cleaned H) as HF.
  destruct (Forall2_In_r _ _ _ _ HF Hr') as (r & Hr & Hc).
  split; [|split; [|split]].
  - destruct Hc as (_ & _ & Hy & _). rewrite Hy.
    destruct (Z.ltb_spec 39 (years_as_customer r)); lia.
  - intros m Hm. now apply (load_sales_data_standardized csv cleaned H r').
  - intros Hm Hnone. destruct (cleaned_revenue_None csv r r' Hc Hnone) as (_ & m & Hm' & _).
    destruct Hc as (_ & Hs & _). congruence.
  - intros Hnone x Hx Hsame.
    destruct (cleaned_revenue_None csv r r' Hc Hnone) as (_ & m & Hm & Hk).
    destruct (Forall2_In_r _ _ _ _ HF Hx) as (y & Hy & Hcy).
    apply (cleaned_revenue_of_empty_method csv y x m Hy Hcy); [|exact Hk].
    destruct Hc as (_ & Hs & _). destruct Hcy as (_ & Hsy & _). congruence.
Qed.

(** The record of [call_without_revenue] that stays without revenue. *)
Lemma cleaned_table_invariants_witness :
  load_sales_data call_without_revenue = Ok call_without_revenue_cleaned /\
  In (mkRow "Ohio" (Some "Call") None 2) call_without_revenue_cleaned /\
  (2 <= 39)%Z /\
  (forall m, Some "Call" = Some m -> In m numeric_cols).
Proof.
  assert (H : load_sales_data call_without_revenue = Ok call_without_revenue_cleaned)
    by evaluate.
  assert (Hin : In (mkRow "Ohio" (Some "Call") None 2) call_without_revenue_cleaned)
    by (right; left; reflexivity).
  split; [exact H|]. split; [exact Hin|].
  destruct (cleaned_table_invariants call_without_revenue call_without_revenue_cleaned
              (mkRow "Ohio" (Some "Call") None 2) H Hin) as (Hy & Hm & _).
  split; [exact Hy | exact Hm].
Defined.

(** X2: cleaning is idempotent: a table that [load_sales_data] returned is
    returned unchanged when it is cleaned again. *)
Theorem cleaning_is_idempotent csv cleaned :
  load_sales_data csv = Ok cleaned ->
  load_sales_data cleaned = Ok cleaned.
Proof.
  intros H. pose proof (load_sales_data_rows csv cleaned H) as HF.
  assert (Hne : cleaned <> []).
  { intros ->. inversion HF; subst. discriminate H. }
  destruct (load_sales_data_succeeds cleaned Hne) as [again Hagain].
  - intros x Hx Hrev.
    rewrite (cleaned_method_of csv cleaned x H Hx).
    destruct (Forall2_In_r _ _ _ _ HF Hx) as (y & _ & Hc).
    destruct (cleaned_revenue_None csv y x Hc Hrev) as (_ & m & Hm & _).
    destruct Hc as (_ & Hc & _). congruence.
  - rewrite Hagain. f_equal. apply Forall2_same.
    apply (Forall2_impl_In (cleaned_from cleaned)).
    + now apply load_sales_data_rows.
    + intros a b Ha _ Hab. now apply (cleaned_row_is_fixed csv cleaned a b).
Qed.

(** Cleaning the cleaned sample once more changes nothing. *)
Lemma cleaning_is_idempotent_witness :
  load_sales_data call_10_null_30 = Ok call_10_null_30_cleaned /\
  load_sales_data call_10_null_30_cleaned = Ok call_10_null_30_cleaned.
Proof.
  assert (H : load_sales_data call_10_null_30 = Ok call_10_null_30_cleaned)
    by evaluate.
  split; [exact H|].
  exact (cleaning_is_idempotent call_10_null_30 call_10_null_30_cleaned H).
Defined.

(** X3: cleaning keeps the rows in place: the state column of the cleaned
    table is that of the input, row by row, and its method column is the
    image of the input's under the mapping. *)
Theorem cleaning_keeps_states_in_place csv cleaned :
  load_sales_data csv = Ok cleaned ->
  map state cleaned = map state csv /\
  map sales_method cleaned
  = map (fun r => map_cell sales_method_mapping (sales_method r)) csv.
Proof.
  intros H. apply load_sales_data_rows in H. split; symmetry.
  - apply Forall2_map_eq. eapply Forall2_impl; [|exact H].
    intros a b (Hs & _). now symmetry.
  - apply Forall2_map_eq. eapply Forall2_impl; [|exact H].
    intros a b (_ & Hm & _). now symmetry.
Qed.

(** The states and methods of [fax_table] after cleaning. *)
Lemma cleaning_keeps_states_in_place_witness :
  load_sales_data fax_table = Ok fax_table_cleaned /\
  map state fax_table_cleaned = ["Texas"; "Ohio"] /\
  map sales_method fax_table_cleaned = [Some "Email"; None].
Proof.
  assert (H : load_sales_data fax_table = Ok fax_table_cleaned) by evaluate.
  split; [exact H|].
  exact (cleaning_keeps_states_in_place fax_table fax_table_cleaned H).
Defined.

Section MeanImputation.

Local Open Scope Q_scope.

Lemma mean_Some l v vs :
  dropna l = v :: vs ->
  mean l = Some (Qsum (v :: vs) / inject_Z (Z.of_nat (List.length (v :: vs)))).
Proof. unfold mean. now intros ->. Qed.

(** The revenues of a method in the cleaned table are the filled ones. *)
Lemma cleaned_revenues_filled csv m mu :
  mean (revenue_of_method (standardize_methods csv) m) = Some mu ->
  forall l l',
    Forall2 (cleaned_from csv) l l' ->
    dropna (revenue_of_method l' m) = filled_revenues mu l m.
Proof.
  intros Hmu l l'. unfold revenue_of_method, filled_revenues, dropna.
  induction 1 as [|r r' l l' (_ & Hm & _ & Hv) _ IH]; [reflexivity|].
  cbn [filter flat_map map]. rewrite Hm.
  destruct (method_of r) as [m'|]; [|exact IH].
  destruct (String.eqb_spec m' m) as [->|_]; [|exact IH].
  cbn [map flat_map]. rewrite IH.
  destruct (revenue r) as [v|]; rewrite Hv; [reflexivity|].
  now rewrite Hmu.
Qed.

(** The filled list is the known revenues plus [mu] once per missing one. *)
Lemma filled_revenues_sum mu m l :
  exists j,
    List.length (filled_revenues mu l m)
    = (List.length (known_revenues l m) + j)%nat /\
    Qsum (filled_revenues mu l m)
    == Qsum (known_revenues l m) + inject_Z (Z.of_nat j) * mu.
Proof.
  unfold filled_revenues, known_revenues.
  induction l as [|r l (j & Hlen & Hsum)].
  - exists 0%nat. split; [reflexivity|]. simpl. ring.
  - cbn [flat_map]. destruct (method_of r) as [m'|]; [|exists j; auto].
    destruct (revenue r) as [v|]; destruct (String.eqb m' m).
    + exists j. cbn [app List.length Qsum fold_right]. split; [now rewrite Hlen|].
      fold (Qsum (flat_map (fun r0 => match method_of r0 with
          | Some m'0 => if String.eqb m'0 m
                        then [match revenue r0 with Some v0 => v0 | None => mu end]
                        else []
          | None => [] end) l)).
      rewrite Hsum. unfold Qsum. ring.
    + exists j. auto.
    + exists (S j). cbn [app List.length Qsum fold_right]. split; [lia|].
      fold (Qsum (flat_map (fun r0 => match method_of r0 with
          | Some m'0 => if String.eqb m'0 m
                        then [match revenue r0 with Some v0 => v0 | None => mu end]
                        else []
          | None => [] end) l)).
      rewrite Hsum, Nat2Z.inj_succ. unfold Z.succ. rewrite inject_Z_plus.
      unfold Qsum. ring.
    + exists j. auto.
Qed.

Lemma mean_of_filled (S mu a b : Q) :
  0 < a -> 0 <= b -> mu == S / a -> (S + b * mu) / (a + b) == mu.
Proof.
  intros Ha Hb ->. field. split; intros H; lra.
Qed.

End MeanImputation.

(** X4: imputing the method mean leaves the method mean where it was: when
    a method has a known revenue, no cleaned record of that method lacks a
    revenue, and the mean revenue of the method in the cleaned table equals
    its mean over the known revenues of the input. *)
Theorem imputation_preserves_method_means csv cleaned m :
  load_sales_data csv = Ok cleaned ->
  known_revenues csv m <> [] ->
  (forall x, In x cleaned -> sales_method x = Some m -> revenue x <> None) /\
  exists mu mu',
    mean (revenue_of_method (standardize_methods csv) m) = Some mu /\
    mean (revenue_of_method cleaned m) = Some mu' /\
    (mu' == mu)%Q.
Proof.
  intros H Hk. pose proof (load_sales_data_rows csv cleaned H) as HF. split.
  - intros x Hx Hm Hnone.
    destruct (Forall2_In_r _ _ _ _ HF Hx) as (y & _ & Hc).
    destruct (cleaned_revenue_None csv y x Hc Hnone) as (_ & m' & Hm' & Hk').
    destruct Hc as (_ & Hc & _). congruence.
  - destruct (known_revenues csv m) as [|v vs] eqn:Ek; [congruence|].
    pose proof (known_revenues_standardized csv m) as Hstd. rewrite Ek in Hstd.
    pose proof (mean_Some _ v vs Hstd) as Hmu.
    pose proof (cleaned_revenues_filled csv m _ Hmu csv cleaned HF) as Hfill.
    destruct (filled_revenues_sum
                (Qsum (v :: vs) / inject_Z (Z.of_nat (List.length (v :: vs))))%Q m csv)
      as (j & Hlen & Hsum).
    rewrite Ek in Hlen, Hsum.
    destruct (filled_revenues _ csv m) as [|w ws] eqn:Ef; [discriminate Hlen|].
    eexists. eexists. split; [exact Hmu|].
    split; [exact (mean_Some _ w ws Hfill)|].
    rewrite Hsum, Hlen, Nat2Z.inj_add, inject_Z_plus.
    apply mean_of_filled.
    + rewrite <- (Zlt_Qlt 0). cbn [List.length]. lia.
    + rewrite <- (Zle_Qle 0). lia.
    + reflexivity.
Qed.

(** [Call] in the sample: known revenues 10 and 30, one missing. *)
Lemma imputation_preserves_method_means_witness :
  load_sales_data call_10_null_30 = Ok call_10_null_30_cleaned /\
  known_revenues call_10_null_30 "Call" <> [] /\
  exists mu mu',
    mean (revenue_of_method (standardize_methods call_10_null_30) "Call") = Some mu /\
    mean (revenue_of_method call_10_null_30_cleaned "Call") = Some mu' /\
    (mu' == mu)%Q.
Proof.
  assert (H : load_sales_data call_10_null_30 = Ok call_10_null_30_cleaned)
    by evaluate.
  assert (Hk : known_revenues call_10_null_30 "Call" <> []) by discriminate.
  split; [exact H|]. split; [exact Hk|].
  exact (proj2 (imputation_preserves_method_means
                  call_10_null_30 call_10_null_30_cleaned "Call" H Hk)).
Defined.

(** * Further properties of the aggregation stage *)

Section Percentages.

Local Open Scope Q_scope.







End Percentages.

(** X5: the returned frame is well formed: its rows are in strictly
    increasing order of state name, and every row has the same method
    columns, in strictly increasing order: the methods that occur in the
    table. *)
Theorem output_is_sorted t out :
  calculate_geographic_dominance t = Ok out ->
  StronglySorted (fun a b => String.compare a b = Lt) (map out_state out) /\
  exists cols,
    StronglySorted (fun a b => String.compare a b = Lt) cols /\
    (forall c, In c cols <-> exists x, In x t /\ sales_method x = Some c) /\
    forall r, In r out -> map fst (pct r) = cols.
Proof.
  intros H. apply calculate_geographic_dominance_Ok in H. destruct H as [_ ->].
  split.
  - rewrite map_map. cbn [choropleth_of out_state]. rewrite map_id.
    apply sorted_unique_sorted.
  - exists (group_methods t). split; [apply sorted_unique_sorted|].
    split; [apply group_methods_In|].
    intros r Hr. apply in_map_iff in Hr. destruct Hr as (s & <- & _).
    cbn [choropleth_of pct]. rewrite percent_row_size_row, map_map.
    cbn [fst]. apply map_id.
Qed.

(** In [texas_3_7_0] the Texas records come first; Ohio comes out first. *)
Lemma output_is_sorted_witness :
  calculate_geographic_dominance texas_3_7_0
  = Ok (map (choropleth_of texas_3_7_0) ["Ohio"; "Texas"]) /\
  StronglySorted (fun a b => String.compare a b = Lt)
    (map out_state (map (choropleth_of texas_3_7_0) ["Ohio"; "Texas"])).
Proof.
  assert (H : calculate_geographic_dominance texas_3_7_0
              = Ok (map (choropleth_of texas_3_7_0) ["Ohio"; "Texas"]))
    by evaluate.
  split; [exact H|].
  exact (proj1 (output_is_sorted texas_3_7_0 _ H)).
Defined.





Section RegionCodes.

Lemma dict_get_In {V} (d : dict V) k v : dict_get d k = Some v -> In (k, v) d.
Proof.
  induction d as [|[k' v'] d IH]; simpl; [discriminate|].
  destruct (String.eqb_spec k' k) as [->|_]; intros H.
  - injection H as ->. now left.
  - right. now apply IH.
Qed.

Lemma NoDup_values_injective {V} (d : dict V) k k' v :
  NoDup (map snd d) -> In (k, v) d -> In (k', v) d -> k = k'.
Proof.
  induction d as [|[a w] d IH]; simpl; [tauto|].
  intros Hnd H1 H2. inversion Hnd as [|? ? Hn Hnd']; subst.
  destruct H1 as [H1|H1], H2 as [H2|H2].
  - congruence.
  - injection H1 as -> ->. exfalso. apply Hn.
    change v with (snd (k', v)). now apply in_map.
  - injection H2 as -> ->. exfalso. apply Hn.
    change v with (snd (k, v)). now apply in_map.
  - now apply IH.
Qed.

Lemma state_abbrev_codes_NoDup : NoDup (map snd state_abbrev).
Proof.
  assert (E : nodup string_dec (map snd state_abbrev) = map snd state_abbrev)
    by (vm_compute; reflexivity).
  rewrite <- E. apply NoDup_nodup.
Qed.

End RegionCodes.

(** X8: no two rows of the returned frame carry the same state
    abbreviation: rows that have an abbreviation in common are one and the
    same row. *)
Theorem abbreviations_are_distinct t out r1 r2 code :
  calculate_geographic_dominance t = Ok out ->
  In r1 out -> In r2 out ->
  state_abbrev_col r1 = Some code ->
  state_abbrev_col r2 = Some code ->
  r1 = r2.
Proof.
  intros H H1 H2 Hc1 Hc2.
  apply calculate_geographic_dominance_Ok in H. destruct H as [_ ->].
  apply in_map_iff in H1. destruct H1 as (s1 & <- & _).
  apply in_map_iff in H2. destruct H2 as (s2 & <- & _).
  cbn [choropleth_of state_abbrev_col] in Hc1, Hc2.
  f_equal.
  apply (NoDup_values_injective state_abbrev s1 s2 code state_abbrev_codes_NoDup);
    now apply dict_get_In.
Qed.

(** The two rows of [texas_3_7_0] have the codes OH and TX. *)
Lemma abbreviations_are_distinct_witness :
  calculate_geographic_dominance texas_3_7_0
  = Ok (map (choropleth_of texas_3_7_0) ["Ohio"; "Texas"]) /\
  state_abbrev_col (choropleth_of texas_3_7_0 "Texas") = Some "TX" /\
  choropleth_of texas_3_7_0 "Texas" = choropleth_of texas_3_7_0 "Texas".
Proof.
  assert (H : calculate_geographic_dominance texas_3_7_0
              = Ok (map (choropleth_of texas_3_7_0) ["Ohio"; "Texas"]))
    by evaluate.
  assert (Hin : In (choropleth_of texas_3_7_0 "Texas")
                   (map (choropleth_of texas_3_7_0) ["Ohio"; "Texas"]))
    by (right; left; reflexivity).
  split; [exact H|]. split; [reflexivity|].
  exact (abbreviations_are_distinct texas_3_7_0 _ _ _ "TX" H Hin Hin eq_refl eq_refl).
Defined.



Section StateAndMethod.

Lemma grouped_of_pairs t :
  grouped t
  = flat_map (fun k => match snd k with
                       | Some m => [(fst k, m)]
                       | None => []
                       end)
             (map (fun r => (state r, sales_method r)) t).
Proof.
  unfold grouped. induction t as [|r t IH]; [reflexivity|].
  cbn [flat_map map fst snd]. now rewrite IH.
Qed.

Lemma calculate_geographic_dominance_grouped t1 t2 :
  grouped t1 = grouped t2 ->
  calculate_geographic_dominance t1 = calculate_geographic_dominance t2.
Proof.
  intros H. rewrite !calculate_geographic_dominance_unfold.
  unfold group_methods, group_states. rewrite H.
  destruct (missing_labels _ _); [|reflexivity].
  f_equal. apply map_ext. intros s.
  unfold choropleth_of, size_row, group_methods, group_size. now rewrite H.
Qed.

End StateAndMethod.

(** X10: the aggregation reads the state and the method of the records and
    nothing else: tables with the same two columns give the same result, so
    that aggregating a cleaned table is aggregating the input with its
    methods standardized (the imputed revenues and the capped tenures play
    no part). *)
Theorem aggregation_reads_state_and_method :
  (forall t1 t2,
      map (fun r => (state r, sales_method r)) t1
      = map (fun r => (state r, sales_method r)) t2 ->
      calculate_geographic_dominance t1 = calculate_geographic_dominance t2) /\
  (forall csv cleaned,
      load_sales_data csv = Ok cleaned ->
      calculate_geographic_dominance cleaned
      = calculate_geographic_dominance (standardize_methods csv)).
Proof.
  assert (Hpairs : forall t1 t2,
             map (fun r => (state r, sales_method r)) t1
             = map (fun r => (state r, sales_method r)) t2 ->
             calculate_geographic_dominance t1 = calculate_geographic_dominance t2).
  { intros t1 t2 H. apply calculate_geographic_dominance_grouped.
    now rewrite !grouped_of_pairs, H. }
  split; [exact Hpairs|].
  intros csv cleaned H. apply Hpairs. apply load_sales_data_rows in H.
  unfold standardize_methods. rewrite map_map. symmetry.
  apply Forall2_map_eq. eapply Forall2_impl; [|exact H].
  intros a b (Hs & Hm & _). cbn [state sales_method set_sales_method].
  fold (method_of a). congruence.
Qed.

(** Cleaning the sample imputes a revenue and caps a tenure; the aggregation
    of the cleaned sample is that of the raw one. *)
Lemma aggregation_reads_state_and_method_witness :
  load_sales_data call_10_null_30 = Ok call_10_null_30_cleaned /\
  calculate_geographic_dominance call_10_null_30_cleaned
  = calculate_geographic_dominance (standardize_methods call_10_null_30).
Proof.
  assert (H : load_sales_data call_10_null_30 = Ok call_10_null_30_cleaned)
    by evaluate.
  split; [exact H|].
  exact (proj2 aggregation_reads_state_and_method
               call_10_null_30 call_10_null_30_cleaned H).
Defined.

(** * The run of [main] *)

Section Run.

(** The two stages in a row, on a table that passes both. *)
Lemma pipeline_returns csv :
  csv <> [] ->
  (forall r, In r csv -> revenue r = None -> method_of r <> None) ->
  (forall c, In c numeric_cols -> exists x, In x csv /\ method_of x = Some c) ->
  exists cleaned out,
    load_sales_data csv = Ok cleaned /\
    List.length cleaned = List.length csv /\
    calculate_geographic_dominance cleaned = Ok out /\
    out = map (choropleth_of (standardize_methods csv))
              (group_states (standardize_methods csv)).
Proof.
  intros Hne Hfiled Hall.
  destruct (load_sales_data_succeeds csv Hne Hfiled) as [cleaned Hc].
  pose proof (load_sales_data_rows csv cleaned Hc) as HF.
  exists cleaned. eexists. split; [exact Hc|].
  split; [symmetry; exact (Forall2_length HF)|].
  assert (Hsame : calculate_geographic_dominance cleaned
                  = calculate_geographic_dominance (standardize_methods csv)).
  { apply calculate_geographic_dominance_grouped.
    rewrite !grouped_of_pairs. f_equal.
    unfold standardize_methods. rewrite map_map. symmetry.
    apply Forall2_map_eq. eapply Forall2_impl; [|exact HF].
    intros a b (Hs & Hm & _). cbn [state sales_method set_sales_method].
    fold (method_of a). congruence. }
  rewrite Hsame. split; [|reflexivity].
  apply calculate_geographic_dominance_Ok. split; [|reflexivity].
  intros c Hc'. apply group_methods_In.
  destruct (Hall c Hc') as (x & Hx & Hm).
  exists (set_sales_method x (method_of x)). split; [|exact Hm].
  unfold standardize_methods. apply in_map_iff. exists x. split; [reflexivity|exact Hx].
Qed.

Lemma standardized_states csv s :
  In s (group_states (standardize_methods csv)) <->
  exists x, In x csv /\ state x = s /\ method_of x <> None.
Proof.
  rewrite group_states_In. split.
  - intros (a & Ha & Hs & Hm). apply in_standardize in Ha.
    destruct Ha as (x & Hx & ->). exists x. auto.
  - intros (x & Hx & Hs & Hm). exists (set_sales_method x (method_of x)).
    split; [|split; assumption].
    unfold standardize_methods. apply in_map_iff. exists x. split; [reflexivity|exact Hx].
Qed.

(** What a table that [load_sales_data] accepts looks like. *)
Lemma load_sales_data_accepts csv cleaned :
  load_sales_data csv = Ok cleaned ->
  csv <> [] /\ (forall r, In r csv -> revenue r = None -> method_of r <> None).
Proof.
  intros H. split.
  - intros ->. discriminate H.
  - intros r Hr Hrev Hm.
    rewrite (load_sales_data_raises csv r Hr Hrev Hm) in H. discriminate H.
Qed.

End Run.

(** X11: the run of [main] on a file whose table passes both stages (at
    least one row, no record without both revenue and mapped method, each
    canonical method the mapped method of some record): it prints the number
    of rows of the file, then the number of distinct states that have a
    record with a mapped method, then plots the aggregate of the
    standardized table; if plotting raises, the exception is reported and
    the run ends; otherwise the saved line is printed, the figure is shown,
    and an exception of [fig.show()] only adds the open-in-browser line. *)
Theorem main_draws_the_map px csv :
  csv <> [] ->
  (forall r, In r csv -> revenue r = None -> method_of r <> None) ->
  (forall c, In c numeric_cols -> exists x, In x csv /\ method_of x = Some c) ->
  exists choropleth_data,
    calculate_geographic_dominance (standardize_methods csv) = Ok choropleth_data /\
    NoDup (map out_state choropleth_data) /\
    (forall s,
        In s (map out_state choropleth_data) <->
        exists x, In x csv /\ state x = s /\ method_of x <> None) /\
    main px (Some csv)
    = [ Printed ("Loaded " ++ str_of_len (List.length csv) ++ " customer records");
        Printed ("Calculated dominance metrics for "
                 ++ str_of_len (List.length choropleth_data) ++ " states");
        Plotted choropleth_data ]
      ++ match plot_raises px choropleth_data with
         | Some e => [main_except e]
         | None =>
             [ Printed "Interactive choropleth map saved as: sales_method_dominance_choropleth.html";
               Shown choropleth_data ]
             ++ match show_raises px choropleth_data with
                | Some _ =>
                    [Printed "Map saved to HTML file. Open in browser to view interactively."]
                | None => []
                end
         end.
Proof.
  intros Hne Hfiled Hall.
  destruct (pipeline_returns csv Hne Hfiled Hall) as (cleaned & out & Hc & Hlen & Ho & Hout).
  exists out.
  assert (Hstates : map out_state out = group_states (standardize_methods csv)).
  { rewrite Hout, map_map. cbn [choropleth_of out_state]. apply map_id. }
  split; [|split; [|split]].
  - apply calculate_geographic_dominance_Ok. split; [|exact Hout].
    apply calculate_geographic_dominance_Ok in Ho.
    intros c Hc'. apply group_methods_In.
    destruct (Hall c Hc') as (x & Hx & Hm).
    exists (set_sales_method x (method_of x)). split; [|exact Hm].
    unfold standardize_methods. apply in_map_iff. exists x. split; [reflexivity|exact Hx].
  - rewrite Hstates. apply sorted_unique_NoDup.
  - intros s. rewrite Hstates. apply standardized_states.
  - unfold main, main_try. rewrite Hc, Ho, Hlen.
    unfold create_choropleth_map.
    destruct (plot_raises px out); cbn [fst snd app]; [reflexivity|].
    destruct (show_raises px out); reflexivity.
Qed.

(** The run on [texas_3_7_0] when plotly returns from every call. *)
Lemma main_draws_the_map_witness :
  exists choropleth_data,
    calculate_geographic_dominance (standardize_methods texas_3_7_0)
    = Ok choropleth_data /\
    main (mkPlotly (fun _ => None) (fun _ => None)) (Some texas_3_7_0)
    = [ Printed "Loaded 11 customer records";
        Printed ("Calculated dominance metrics for "
                 ++ str_of_len (List.length choropleth_data) ++ " states");
        Plotted choropleth_data;
        Printed "Interactive choropleth map saved as: sales_method_dominance_choropleth.html";
        Shown choropleth_data ].
Proof.
  assert (Hne : texas_3_7_0 <> []) by discriminate.
  assert (Hfiled : forall r, In r texas_3_7_0 -> revenue r = None -> method_of r <> None).
  { intros r Hr. vm_compute in Hr.
    repeat (destruct Hr as [<-|Hr]; [discriminate|]). destruct Hr. }
  assert (Hall : forall c, In c numeric_cols ->
            exists x, In x texas_3_7_0 /\ method_of x = Some c).
  { intros c [<-|[<-|[<-|[]]]].
    - exists (mkRow "Texas" (Some "Call") (Some 1%Q) 1). split; [|reflexivity].
      do 3 right; left; reflexivity.
    - exists (mkRow "Texas" (Some "Email") (Some 1%Q) 1). split; [|reflexivity].
      left; reflexivity.
    - exists (mkRow "Ohio" (Some "Email + Call") (Some 1%Q) 1). split; [|reflexivity].
      do 10 right; left; reflexivity. }
  destruct (main_draws_the_map (mkPlotly (fun _ => None) (fun _ => None))
              texas_3_7_0 Hne Hfiled Hall) as (data & Hdata & _ & _ & Hmain).
  exists data. split; [exact Hdata | exact Hmain].
Defined.

(** X12: [main] reaches the plotting call exactly when the file exists and
    its table has at least one row, has no record without both revenue and
    mapped method, and has each of the three canonical methods as the mapped
    method of some record. *)
Theorem main_plots_iff px product_sales_csv :
  (exists choropleth_data, In (Plotted choropleth_data) (main px product_sales_csv)) <->
  exists csv,
    product_sales_csv = Some csv /\ csv <> [] /\
    (forall r, In r csv -> revenue r = None -> method_of r <> None) /\
    (forall c, In c numeric_cols -> exists x, In x csv /\ method_of x = Some c).
Proof.
  split.
  - intros (data & Hin). unfold main, main_try in Hin.
    destruct product_sales_csv as [csv|];
      [|cbn in Hin; destruct Hin as [Hin|[]]; discriminate Hin].
    exists csv. split; [reflexivity|].
    destruct (load_sales_data csv) as [cleaned|e] eqn:Hc;
      [|cbn in Hin; destruct Hin as [Hin|[]]; discriminate Hin].
    destruct (load_sales_data_accepts csv cleaned Hc) as [Hne Hfiled].
    split; [exact Hne|]. split; [exact Hfiled|].
    destruct (calculate_geographic_dominance cleaned) as [out|e] eqn:Ho.
    + apply calculate_geographic_dominance_Ok in Ho. destruct Ho as [Hall _].
      intros c Hc'. apply Hall, group_methods_In in Hc'.
      destruct Hc' as (x & Hx & Hm).
      destruct (Forall2_In_r _ _ _ _ (load_sales_data_rows csv cleaned Hc) Hx)
        as (y & Hy & _ & Hmy & _).
      exists y. split; [exact Hy | congruence].
    + cbn in Hin. destruct Hin as [Hin|[Hin|[]]]; discriminate Hin.
  - intros (csv & -> & Hne & Hfiled & Hall).
    destruct (pipeline_returns csv Hne Hfiled Hall) as (cleaned & out & Hc & _ & Ho & _).
    exists out. unfold main, main_try. rewrite Hc, Ho. unfold create_choropleth_map.
    apply in_or_app. left. cbn [fst]. right. right.
    destruct (plot_raises px out); left; reflexivity.
Qed.

(** The run on [texas_3_7_0] reaches the plotting call. *)
Lemma main_plots_iff_witness :
  exists choropleth_data,
    In (Plotted choropleth_data)
       (main (mkPlotly (fun _ => None) (fun _ => None)) (Some texas_3_7_0)).
Proof.
  apply (proj2 (main_plots_iff (mkPlotly (fun _ => None) (fun _ => None))
                  (Some texas_3_7_0))).
  exists texas_3_7_0. split; [reflexivity|]. split; [discriminate|]. split.
  - intros r Hr. vm_compute in Hr.
    repeat (destruct Hr as [<-|Hr]; [discriminate|]). destruct Hr.
  - intros c [<-|[<-|[<-|[]]]].
    + exists (mkRow "Texas" (Some "Call") (Some 1%Q) 1). split; [|reflexivity].
      do 3 right; left; reflexivity.
    + exists (mkRow "Texas" (Some "Email") (Some 1%Q) 1). split; [|reflexivity].
      left; reflexivity.
    + exists (mkRow "Ohio" (Some "Email + Call") (Some 1%Q) 1). split; [|reflexivity].
      do 10 right; left; reflexivity.
Defined.

(** X13: what [main] prints when the run fails before plotting.  Without
    the file: the not-found line alone.  With a record that has neither a
    revenue nor a mapped method: the exception line of the lookup error
    alone, not even the count of records.  With a table that is cleaned but
    lacks a canonical method: the count of records, then the exception line
    of the column lookup that names the method. *)
Theorem main_reports_failures px :
  main px None = [Printed "Error: product_sales.csv not found in Study/ directory"] /\
  (forall csv r,
      In r csv -> revenue r = None -> method_of r = None ->
      main px (Some csv) = [Printed_exception (StageError (KeyError None))]) /\
  (forall csv c,
      csv <> [] ->
      (forall r, In r csv -> revenue r = None -> method_of r <> None) ->
      In c numeric_cols ->
      (forall x, In x csv -> method_of x <> Some c) ->
      exists missing,
        In c missing /\
        main px (Some csv)
        = [ Printed ("Loaded " ++ str_of_len (List.length csv) ++ " customer records");
            Printed_exception (StageError (KeyError_columns missing)) ]).
Proof.
  split; [reflexivity|]. split.
  - intros csv r Hr Hrev Hm. unfold main, main_try.
    now rewrite (load_sales_data_raises csv r Hr Hrev Hm).
  - intros csv c Hne Hfiled Hc Hno.
    destruct (load_sales_data_succeeds csv Hne Hfiled) as [cleaned Hcl].
    pose proof (load_sales_data_rows csv cleaned Hcl) as HF.
    assert (Hin : In c (missing_labels numeric_cols (group_methods cleaned))).
    { apply missing_labels_In. split; [exact Hc|].
      intros H. apply group_methods_In in H. destruct H as (x & Hx & Hm).
      destruct (Forall2_In_r _ _ _ _ HF Hx) as (y & Hy & _ & Hmy & _).
      apply (Hno y Hy). congruence. }
    unfold main, main_try.
    rewrite Hcl, calculate_geographic_dominance_unfold, <- (Forall2_length HF).
    destruct (missing_labels numeric_cols (group_methods cleaned)) as [|m l];
      [destruct Hin|].
    exists (m :: l). split; [exact Hin | reflexivity].
Qed.

(** The run on [fax_without_revenue] prints the exception line alone. *)
Lemma main_reports_failures_witness :
  In (mkRow "Ohio" (Some "fax") None 2) fax_without_revenue /\
  main (mkPlotly (fun _ => None) (fun _ => None)) (Some fax_without_revenue)
  = [Printed_exception (StageError (KeyError None))].
Proof.
  assert (Hin : In (mkRow "Ohio" (Some "fax") None 2) fax_without_revenue)
    by (right; left; reflexivity).
  split; [exact Hin|].
  exact (proj1 (proj2 (main_reports_failures (mkPlotly (fun _ => None) (fun _ => None))))
               fax_without_revenue (mkRow "Ohio" (Some "fax") None 2)
               Hin eq_refl eq_refl).
Defined.

(** * The dominant method in terms of record counts *)

Section Counts.

Local Open Scope Q_scope.

Lemma percent_le_counts (a b N : Z) :
  (0 < N)%Z ->
  inject_Z a / inject_Z N * 100 <= inject_Z b / inject_Z N * 100 ->
  (a <= b)%Z.
Proof.
  intros HN H.
  assert (HNq : 0 < inject_Z N) by (now rewrite <- (Zlt_Qlt 0)).
  rewrite Zle_Qle.
  assert (E : forall x, x == x / inject_Z N * 100 * (inject_Z N / 100))
    by (intros x; field; intros E; rewrite E in HNq; exact (Qlt_irrefl _ HNq)).
  rewrite (E (inject_Z a)), (E (inject_Z b)).
  apply Qmult_le_compat_r; [exact H|].
  apply Qle_shift_div_l; lra.
Qed.

Lemma percent_lt_counts (a b N : Z) :
  (0 < N)%Z ->
  inject_Z a / inject_Z N * 100 < inject_Z b / inject_Z N * 100 ->
  (a < b)%Z.
Proof.
  intros HN H.
  destruct (Z.lt_ge_cases a b) as [Hlt|Hge]; [exact Hlt|].
  exfalso. apply (Qlt_not_le _ _ H).
  assert (HNq : 0 < inject_Z N) by (now rewrite <- (Zlt_Qlt 0)).
  apply Qmult_le_compat_r; [|lra].
  apply Qmult_le_compat_r; [now rewrite <- Zle_Qle|].
  apply Qlt_le_weak, Qinv_lt_0_compat, HNq.
Qed.

End Counts.

(** X14: the dominant method of a returned row is a canonical method with
    the most records in the state: no canonical method has more, and every
    canonical method listed before it in Call, Email, Email + Call has
    strictly fewer; when the methods of the table are standardized it has at
    least one record. *)
Theorem dominant_method_has_most_records t out r d :
  calculate_geographic_dominance t = Ok out ->
  In r out ->
  dominant_method r = Some d ->
  In d numeric_cols /\
  (forall c, In c numeric_cols ->
             (count_state_method t (out_state r) c
              <= count_state_method t (out_state r) d)%Z) /\
  (forall c, precedes numeric_cols c d ->
             (count_state_method t (out_state r) c
              < count_state_method t (out_state r) d)%Z) /\
  (methods_standardized t -> (0 < count_state_method t (out_state r) d)%Z).
Proof.
  intros H Hr Hd. apply calculate_geographic_dominance_Ok in H. destruct H as [Hall ->].
  apply in_map_iff in Hr. destruct Hr as (st & <- & Hst).
  pose proof (count_state_pos t st Hst) as Hpos.
  destruct (numeric_cells t st Hall) as [Hne Hkeys].
  assert (Hnd : NoDup (map fst (select numeric_cols (percent_row (size_row t st)))))
    by (rewrite Hkeys; exact numeric_cols_NoDup).
  destruct (idxmax_row_max _ Hne Hnd) as (d' & vd & s & Hd' & _ & _ & Hin & Hle & Hlt).
  cbn [choropleth_of dominant_method out_state] in Hd |- *.
  rewrite Hd' in Hd. injection Hd as ->.
  apply select_In in Hin. destruct Hin as [Hdc Hdv].
  rewrite (percent_lookup t st d (Hall d Hdc)) in Hdv. injection Hdv as <-.
  assert (Hcell : forall c, In c numeric_cols ->
            In (c, (inject_Z (count_state_method t st c)
                    / inject_Z (count_state t st) * 100)%Q)
               (select numeric_cols (percent_row (size_row t st)))).
  { intros c Hc. apply select_In. split; [exact Hc|]. now apply percent_lookup, Hall. }
  assert (Hmost : forall c, In c numeric_cols ->
            (count_state_method t st c <= count_state_method t st d)%Z).
  { intros c Hc. apply (percent_le_counts _ _ _ Hpos), (Hle c), Hcell, Hc. }
  split; [exact Hdc|]. split; [exact Hmost|]. split.
  - intros c Hpre. apply (percent_lt_counts _ _ _ Hpos), (Hlt c).
    + now rewrite Hkeys.
    + apply Hcell. destruct Hpre as (l1 & l2 & l3 & ->). apply in_elt.
  - intros Hstd. pose proof (count_state_canonical t st Hstd) as Hsum.
    pose proof (Hmost "Call" (or_introl eq_refl)).
    pose proof (Hmost "Email" (or_intror (or_introl eq_refl))).
    pose proof (Hmost "Email + Call" (or_intror (or_intror (or_introl eq_refl)))).
    lia.
Qed.

(** Texas in [texas_3_7_0]: 7 [Call] records against 3 and 0. *)
Lemma dominant_method_has_most_records_witness :
  calculate_geographic_dominance texas_3_7_0
  = Ok (map (choropleth_of texas_3_7_0) ["Ohio"; "Texas"]) /\
  dominant_method (choropleth_of texas_3_7_0 "Texas") = Some "Call" /\
  forall c, In c numeric_cols ->
            (count_state_method texas_3_7_0 "Texas" c
             <= count_state_method texas_3_7_0 "Texas" "Call")%Z.
Proof.
  assert (H : calculate_geographic_dominance texas_3_7_0
              = Ok (map (choropleth_of texas_3_7_0) ["Ohio"; "Texas"]))
    by evaluate.
  assert (Hd : dominant_method (choropleth_of texas_3_7_0 "Texas") = Some "Call")
    by evaluate.
  split; [exact H|]. split; [exact Hd|].
  refine (proj1 (proj2 (dominant_method_has_most_records texas_3_7_0 _
                          (choropleth_of texas_3_7_0 "Texas") "Call" H _ Hd))).
  right; left; reflexivity.
Defined.
